(** * MaxScale: masking rule engine and read/write split routing

    A shallow embedding of the masking filter's rule engine
    (maskingrules.cc: account matchers, the JSON rule loader, rule
    matching and the three payload rewrites) and of the routing decision
    of the readwritesplit router that the bug694 regression test
    exercises.

    Conventions.
    - A byte buffer (an [LEncString] payload, the characters of a
      [std::string]) is a [list ascii]; names and JSON strings are
      [string]s.
    - The C type [char] is an 8-bit integer whose signedness is chosen by
      the platform; arithmetic on it is done in [Z] with the conversions
      written out.
    - PCRE2 and the helpers of maxscale/mysql_utils.h are libraries the
      engine links against: they are interfaces ([PCRE2], [MysqlUtils])
      whose operations the embedding calls where the source calls them.
    - [MXS_ERROR] calls of the rewrite functions are recorded in a log
      that the function returns next to its payload. The loader's
      diagnostics do not influence what it returns and are left out. *)

From Stdlib Require Import ZArith Lia Ascii String List Bool.
From stdpp Require Import base tactics option list numbers strings.

Local Open Scope Z_scope.
Local Open Scope nat_scope.
Local Open Scope string_scope.
Local Open Scope list_scope.

(** ** Byte buffers *)

Abbreviation bytes := (list ascii) (only parsing).

Definition NUL : ascii := Ascii.zero.

(** [std::string(const char* )] and [std::string::assign]: the characters
    of a string. *)
Definition chars (s : string) : bytes := list_ascii_of_string s.

(** What a reader of a zero-terminated C string sees of a buffer: the
    bytes before the first NUL. *)
Fixpoint c_str (s : bytes) : bytes :=
  match s with
  | [] => []
  | c :: s' => if Ascii.eqb c NUL then [] else c :: c_str s'
  end.

(** ** Outcomes of code with loops and raw iterators *)

(** [Done a]: the code returns [a]. [Undefined]: the code reads or writes
    outside a buffer. [OutOfFuel]: the loop has not finished within the
    given number of iterations. *)
Inductive outcome (A : Type) : Type :=
| Done (a : A)
| Undefined
| OutOfFuel.

Arguments Done {A} a.
Arguments Undefined {A}.
Arguments OutOfFuel {A}.

(** ** The log *)

Inductive log_event : Type :=
| MXS_ERROR (msg : string)
| MXS_PCRE2_PRINT_ERROR (rv : Z).

(** ** fill_buffer *)

(** One iteration per output position: [*o_first++ = *pFill++], then
    [pFill] goes back to [f_first] when it has reached [f_last].
    [pFill] and [o_first] are offsets into the fill and into the buffer;
    [n] is the number of positions left before [o_last]. *)
Fixpoint fill_buffer_loop (fill : bytes) (pFill : nat) (s : bytes)
         (o_first : nat) (n : nat) : option bytes :=
  match n with
  | O => Some s
  | S n' =>
      match fill !! pFill with
      | None => None
      | Some c =>
          if bool_decide (o_first < length s) then
            let pFill' := if bool_decide (S pFill = length fill) then 0 else S pFill in
            fill_buffer_loop fill pFill' (<[o_first := c]> s) (S o_first) n'
          else None
      end
  end.

(** [fill_buffer(f.begin(), f.end(), s.begin() + o_first, s.begin() + o_last)].
    [None] is undefined behaviour: a read past the end of the fill (an
    empty fill), a write past the end of the buffer, or an output range
    whose end lies before its start (the loop runs until [o_first] meets
    [o_last]). *)
Definition fill_buffer (fill : bytes) (s : bytes) (o_first o_last : nat) : option bytes :=
  if bool_decide (o_first <= o_last)
  then fill_buffer_loop fill 0 s o_first (o_last - o_first)
  else None.

(** Fill tiling as the specification words it: position [k] of the tiled
    range holds byte [k mod |fill|] of the fill. *)
Definition tile_from (fill : bytes) (p : nat) (n : nat) : bytes :=
  (fun k => nth ((p + k) mod length fill) fill NUL) <$> seq 0 n.

Definition tile (fill : bytes) (n : nat) : bytes := tile_from fill 0 n.

(** ** The PCRE2 library *)

(** The [length] argument of [pcre2_match]. *)
Inductive pcre2_length : Type :=
| PCRE2_ZERO_TERMINATED
| PCRE2_LENGTH (n : nat).

(** The subject [pcre2_match] reads, given the buffer it is pointed at and
    the [length] argument. *)
Definition pcre2_subject (p : bytes) (len : pcre2_length) : bytes :=
  match len with
  | PCRE2_ZERO_TERMINATED => c_str p
  | PCRE2_LENGTH n => take n p
  end.

(** Error codes of pcre2.h. *)
Definition PCRE2_ERROR_NOMATCH : Z := (-1)%Z.
Definition PCRE2_ERROR_PARTIAL : Z := (-2)%Z.
Definition PCRE2_ERROR_BADOFFSET : Z := (-33)%Z.

(** The operations of PCRE2 the engine calls.
    - [pcre2_compile pattern] is the compiled code, or [None].
    - [pcre2_match_data_create_from_pattern code] tells whether the match
      data block could be allocated.
    - [pcre2_match code subject startoffset] is the return code together
      with the pair [(ovector[0], ovector[1])] left in the match data. *)
Class PCRE2 : Type := {
  pcre2_code : Type;
  pcre2_compile : string -> option pcre2_code;
  pcre2_match_data_create_from_pattern : pcre2_code -> bool;
  pcre2_match : pcre2_code -> bytes -> nat -> Z * (nat * nat)
}.

(** A condition on the matches a matcher reports: a match starts at or
    after [startoffset], its end is not before its start, and it lies
    inside the subject. PCRE2 reports such matches as long as the pattern
    reaches no [\K] inside a lookaround; it is not a promise of the
    library for every pattern ([bsk_pcre2] below has two patterns that
    break it, one in each direction). *)
Definition pcre2_match_in_range (P : PCRE2) : Prop :=
  forall (code : pcre2_code) (subject : bytes) (startoffset : nat)
         (rv : Z) (ov0 ov1 : nat),
    pcre2_match code subject startoffset = (rv, (ov0, ov1)) ->
    (0 <= rv)%Z ->
    startoffset <= ov0 /\ ov0 <= ov1 /\ ov1 <= length subject.

(** ** The helpers of maxscale/mysql_utils.h *)

Inductive mxs_mysql_name_kind_t : Type :=
| MXS_MYSQL_NAME_WITH_WILDCARD
| MXS_MYSQL_NAME_WITHOUT_WILDCARD.

(** - [mxs_mysql_trim_quotes s] is the trimmed string, or [None] where the
      C function returns false.
    - [mxs_mysql_name_to_pcre name] (called with [MXS_PCRE_QUOTE_WILDCARD])
      is what it writes to its output buffer together with the kind it
      returns. *)
Class MysqlUtils : Type := {
  mxs_mysql_trim_quotes : string -> option string;
  mxs_mysql_name_to_pcre : string -> string * mxs_mysql_name_kind_t
}.

(** ** std::find_if *)

(** The position of the first element that satisfies [pred]; [length l]
    (the [end()] iterator) when there is none. *)
Fixpoint find_if {A : Type} (pred : A -> bool) (l : list A) : nat :=
  match l with
  | [] => 0
  | x :: l' => if pred x then 0 else S (find_if pred l')
  end.

Section Masking.

Context {P : PCRE2} {U : MysqlUtils}.

(** ** Accounts *)

Inductive Account : Type :=
| AccountVerbatim (m_user m_host : string)
| AccountRegexp (m_user m_host : string) (m_pCode : pcre2_code).

Definition Account_user (a : Account) : string :=
  match a with
  | AccountVerbatim u _ => u
  | AccountRegexp u _ _ => u
  end.

Definition Account_host (a : Account) : string :=
  match a with
  | AccountVerbatim _ h => h
  | AccountRegexp _ h _ => h
  end.

Definition AccountVerbatim_matches (m_user m_host zUser zHost : string) : bool :=
  (bool_decide (m_user = "") || bool_decide (m_user = zUser)) &&
  (bool_decide (m_host = "") || bool_decide (m_host = zHost)).

(** The source calls [pcre2_match(m_pCode, zHost, 0, 0, 0, pData, NULL)]:
    subject length 0, start offset 0. *)
Definition AccountRegexp_matches (m_user : string) (m_pCode : pcre2_code)
           (zUser zHost : string) : bool :=
  let rv := bool_decide (m_user = "") || bool_decide (m_user = zUser) in
  if rv then
    if pcre2_match_data_create_from_pattern m_pCode
    then (0 <=? fst (pcre2_match m_pCode (pcre2_subject (chars zHost) (PCRE2_LENGTH 0)) 0))%Z
    else rv
  else rv.

Definition Account_matches (a : Account) (zUser zHost : string) : bool :=
  match a with
  | AccountVerbatim u h => AccountVerbatim_matches u h zUser zHost
  | AccountRegexp u _ code => AccountRegexp_matches u code zUser zHost
  end.

Definition AccountRegexp_create (user host : string) : option Account :=
  match pcre2_compile host with
  | Some pCode => Some (AccountRegexp user host pCode)
  | None => None
  end.

(** [strchr(account, '@')] followed by [*zAt = 0]: the part before the
    first '@', and the part after it when there is one. *)
Fixpoint split_at_sign (account : string) : string * option string :=
  match account with
  | EmptyString => (EmptyString, None)
  | String c rest =>
      if Ascii.eqb c "@"%char then (EmptyString, Some rest)
      else let '(u, h) := split_at_sign rest in (String c u, h)
  end.

Definition create_account (zAccount : string) : option Account :=
  let '(zUser0, zHost0) := split_at_sign zAccount in
  match mxs_mysql_trim_quotes zUser0 with
  | Some zUser =>
      let rv0 := MXS_MYSQL_NAME_WITHOUT_WILDCARD in
      let '(zHost, rv) :=
        match zHost0 with
        | Some h0 =>
            match mxs_mysql_trim_quotes h0 with
            | Some h =>
                let '(pcre_host, rv) := mxs_mysql_name_to_pcre h in
                match rv with
                | MXS_MYSQL_NAME_WITH_WILDCARD => (Some pcre_host, rv)
                | MXS_MYSQL_NAME_WITHOUT_WILDCARD => (Some h, rv)
                end
            | None => (None, rv0)
            end
        | None => (Some "", rv0)
        end in
      match zHost with
      | Some h =>
          match rv with
          | MXS_MYSQL_NAME_WITH_WILDCARD => AccountRegexp_create zUser h
          | MXS_MYSQL_NAME_WITHOUT_WILDCARD => Some (AccountVerbatim zUser h)
          end
      | None => None
      end
  | None => None
  end.

(** ** Rules *)

Record Rule_base : Type := {
  m_column : string;
  m_table : string;
  m_database : string;
  m_applies_to : list Account;
  m_exempted : list Account
}.

Inductive Rule : Type :=
| ReplaceRule (base : Rule_base) (m_value m_fill : string)
| ObfuscateRule (base : Rule_base)
| CaptureRule (base : Rule_base) (m_regexp : pcre2_code) (m_fill : string).

Definition Rule_base_of (r : Rule) : Rule_base :=
  match r with
  | ReplaceRule b _ _ => b
  | ObfuscateRule b => b
  | CaptureRule b _ _ => b
  end.

(** [ComQueryResponse::ColumnDef], the three names the rules look at. *)
Record ColumnDef : Type := {
  schema : string;
  org_table : string;
  org_name : string
}.

(** ** Rule::matches *)

Definition Rule_base_matches (r : Rule_base) (column_def : ColumnDef)
           (zUser zHost : string) : bool :=
  let match0 :=
    bool_decide (m_column r = org_name column_def) &&
    (bool_decide (m_table r = "") || bool_decide (m_table r = org_table column_def)) &&
    (bool_decide (m_database r = "") || bool_decide (m_database r = schema column_def)) in
  if match0 then
    let matcher := fun sAccount => Account_matches sAccount zUser zHost in
    let match1 :=
      if negb (length (m_applies_to r) =? 0)%nat
      then negb (find_if matcher (m_applies_to r) =? length (m_applies_to r))%nat
      else match0 in
    if match1 && negb (length (m_exempted r) =? 0)%nat
    then (find_if matcher (m_exempted r) =? length (m_exempted r))%nat
    else match1
  else match0.

Definition Rule_matches (r : Rule) (column_def : ColumnDef)
           (zUser zHost : string) : bool :=
  Rule_base_matches (Rule_base_of r) column_def zUser zHost.

(** ** The C type char *)

(** The value of a byte read through [char]: 0..255 where [char] is
    unsigned, -128..127 where it is signed. *)
Definition char_of_byte (char_signed : bool) (b : ascii) : Z :=
  let n := Z.of_N (N_of_ascii b) in
  if char_signed && (128 <=? n)%Z then (n - 256)%Z else n.

(** Conversion of an [int] to [char]: reduction modulo 256 into the range
    of [char]. *)
Definition int_to_char (char_signed : bool) (z : Z) : Z :=
  if char_signed then ((z + 128) mod 256 - 128)%Z else (z mod 256)%Z.

(** The byte that stores a [char]. *)
Definition byte_of_char (c : Z) : ascii := ascii_of_N (Z.to_N (c mod 256)%Z).

Definition char_code (c : ascii) : Z := Z.of_N (N_of_ascii c).

(** The 256 bytes. *)
Definition all_bytes : list ascii := ascii_of_nat <$> seq 0 256.

(** ** maxscale_basic_obfuscation *)

Definition maxscale_basic_obfuscation (char_signed : bool) (c : Z) : Z :=
  if (char_code "a" <=? c)%Z && (c <=? char_code "z")%Z then
    int_to_char char_signed (Z.rem (c - char_code "a" + 13) 26 + char_code "a")%Z
  else if (char_code "A" <=? c)%Z && (c <=? char_code "Z")%Z then
    int_to_char char_signed (Z.rem (c - char_code "A" + 13) 26 + char_code "A")%Z
  else
    let d := int_to_char char_signed (c + 32)%Z in
    let d := if (d >? 127)%Z then 127%Z else d in
    d.

(** ** ObfuscateRule::rewrite *)

(** What [maxscale_basic_obfuscation] does to a byte of the payload: the
    byte is read as a [char], and the [char] returned is stored. *)
Definition obfuscate_byte (char_signed : bool) (b : ascii) : ascii :=
  byte_of_char (maxscale_basic_obfuscation char_signed (char_of_byte char_signed b)).

(** [std::transform] of the payload onto itself. *)
Definition ObfuscateRule_rewrite (char_signed : bool) (s : bytes) : bytes :=
  obfuscate_byte char_signed <$> s.

(** The obfuscation as the specification words it, on byte values
    0..255: ROT13 on the ASCII letters, case preserved; any other byte
    [b] becomes [min (b + 32) 127]. *)
Definition is_ascii_letter (b : ascii) : bool :=
  ((char_code "a" <=? char_code b)%Z && (char_code b <=? char_code "z")%Z) ||
  ((char_code "A" <=? char_code b)%Z && (char_code b <=? char_code "Z")%Z).

Definition rot13 (b : ascii) : ascii :=
  let n := char_code b in
  if (char_code "a" <=? n)%Z && (n <=? char_code "z")%Z
  then byte_of_char ((n - char_code "a" + 13) mod 26 + char_code "a")%Z
  else if (char_code "A" <=? n)%Z && (n <=? char_code "Z")%Z
  then byte_of_char ((n - char_code "A" + 13) mod 26 + char_code "A")%Z
  else b.

Definition obfuscation_spec (b : ascii) : ascii :=
  if is_ascii_letter b then rot13 b
  else byte_of_char (Z.min (char_code b + 32) 127).

(** ** ReplaceRule::rewrite *)

(** [std::copy(src.begin(), src.end(), s.begin() + o)]: one write per
    byte of the source; [None] is a write past the end of the buffer. *)
Fixpoint std_copy (src : bytes) (s : bytes) (o : nat) : option bytes :=
  match src with
  | [] => Some s
  | c :: src' =>
      if bool_decide (o < length s)
      then std_copy src' (<[o := c]> s) (S o)
      else None
  end.

Definition ReplaceRule_rewrite (m_value m_fill : string) (s : bytes)
  : outcome (bytes * list log_event) :=
  let total_len := length s in
  let copied :=
    if negb (bool_decide (m_value = ""))
    then if bool_decide (String.length m_value = total_len)
         then match std_copy (chars m_value) s 0 with
              | Some s1 => Some (s1, true)
              | None => None
              end
         else Some (s, false)
    else Some (s, false) in
  match copied with
  | None => Undefined
  | Some (s1, rewritten) =>
      if negb rewritten then
        if negb (bool_decide (m_fill = ""))
        then match fill_buffer (chars m_fill) s1 0 (length s1) with
             | Some s2 => Done (s2, [])
             | None => Undefined
             end
        else Done (s1, [MXS_ERROR "Length of returned value differs from the length of the replacement value, and no 'fill' value specified."])
      else Done (s1, [])
  end.

(** ** CaptureRule::rewrite *)

(** The variables the matching loop updates. *)
Record capture_state : Type := {
  cs_s : bytes;
  cs_startoffset : nat;
  cs_rv : Z
}.

Inductive capture_step_result : Type :=
| Continue (st : capture_state)
| Break (st : capture_state)
| Fault.

(** The loop condition followed by one run of the loop body.
    [startoffset < total_len] is tested first; only then is [pcre2_match]
    called and [rv] assigned. With [ovector[1] < ovector[0]] the unsigned
    [substring_len] wraps around and the range handed to [fill_buffer]
    ends before it starts. *)
Definition capture_step (m_regexp : pcre2_code) (m_fill : string)
           (total_len : nat) (st : capture_state) : capture_step_result :=
  if bool_decide (cs_startoffset st < total_len) then
    let '(rv, (ov0, ov1)) :=
      pcre2_match m_regexp (pcre2_subject (cs_s st) PCRE2_ZERO_TERMINATED)
                  (cs_startoffset st) in
    if (0 <=? rv)%Z then
      if bool_decide (ov1 = ov0) then
        Break {| cs_s := cs_s st; cs_startoffset := cs_startoffset st; cs_rv := rv |}
      else if bool_decide (ov1 < ov0) then Fault
      else
        let substring_len := ov1 - ov0 in
        match fill_buffer (chars m_fill) (cs_s st) ov0 (ov0 + substring_len) with
        | Some s' => Continue {| cs_s := s'; cs_startoffset := ov1; cs_rv := rv |}
        | None => Fault
        end
    else Break {| cs_s := cs_s st; cs_startoffset := cs_startoffset st; cs_rv := rv |}
  else Break st.

Fixpoint capture_loop (fuel : nat) (m_regexp : pcre2_code) (m_fill : string)
         (total_len : nat) (st : capture_state) : outcome capture_state :=
  match fuel with
  | O => OutOfFuel
  | S fuel' =>
      match capture_step m_regexp m_fill total_len st with
      | Continue st' => capture_loop fuel' m_regexp m_fill total_len st'
      | Break st' => Done st'
      | Fault => Undefined
      end
  end.

(** The test that guards [MXS_PCRE2_PRINT_ERROR] after the loop, as the
    source writes it: [rv < 0 && (rv != PCRE2_ERROR_NOMATCH || PCRE2_ERROR_PARTIAL)],
    where the constant [PCRE2_ERROR_PARTIAL] stands as a truth value of
    its own. *)
Definition capture_logs_error (rv : Z) : bool :=
  (rv <? 0)%Z &&
  (negb (rv =? PCRE2_ERROR_NOMATCH)%Z || negb (PCRE2_ERROR_PARTIAL =? 0)%Z).

(** The test the comment above it describes: errors other than no-match
    and partial match. *)
Definition capture_error_excluding_nomatch_partial (rv : Z) : bool :=
  (rv <? 0)%Z &&
  negb (rv =? PCRE2_ERROR_NOMATCH)%Z && negb (rv =? PCRE2_ERROR_PARTIAL)%Z.

Definition CaptureRule_rewrite (fuel : nat) (m_regexp : pcre2_code)
           (m_fill : string) (s : bytes) : outcome (bytes * list log_event) :=
  let total_len := length s in
  if pcre2_match_data_create_from_pattern m_regexp then
    match capture_loop fuel m_regexp m_fill total_len
                       {| cs_s := s; cs_startoffset := 0; cs_rv := 0 |} with
    | Done st =>
        Done (cs_s st,
              if capture_logs_error (cs_rv st)
              then [MXS_PCRE2_PRINT_ERROR (cs_rv st)] else [])
    | Undefined => Undefined
    | OutOfFuel => OutOfFuel
    end
  else
    Done (s, [MXS_ERROR "Allocation of matching data for PCRE2 failed. This is most likely caused by a lack of memory"]).

(** ** Rule::rewrite *)

(** The virtual call. [fuel] bounds the iterations of the capture loop. *)
Definition Rule_rewrite (char_signed : bool) (fuel : nat) (r : Rule) (s : bytes)
  : outcome (bytes * list log_event) :=
  match r with
  | ReplaceRule _ m_value m_fill => ReplaceRule_rewrite m_value m_fill s
  | ObfuscateRule _ => Done (ObfuscateRule_rewrite char_signed s, [])
  | CaptureRule _ m_regexp m_fill => CaptureRule_rewrite fuel m_regexp m_fill s
  end.

(** ** JSON values (Jansson's json_t) *)

#[local] Unset Elimination Schemes.
Inductive json_t : Type :=
| JsonObject (members : list (string * json_t))
| JsonArray (elements : list json_t)
| JsonString (value : string)
| JsonInteger (value : Z)
| JsonReal (text : string)
| JsonTrue
| JsonFalse
| JsonNull.
#[local] Set Elimination Schemes.

Definition json_is_object (j : json_t) : bool :=
  match j with JsonObject _ => true | _ => false end.

Definition json_is_array (j : json_t) : bool :=
  match j with JsonArray _ => true | _ => false end.

Definition json_is_string (j : json_t) : bool :=
  match j with JsonString _ => true | _ => false end.

Fixpoint members_get (members : list (string * json_t)) (key : string) : option json_t :=
  match members with
  | [] => None
  | (k, v) :: rest => if bool_decide (k = key) then Some v else members_get rest key
  end.

(** [json_object_get]: NULL when the value is not an object or has no
    such key. *)
Definition json_object_get (j : json_t) (key : string) : option json_t :=
  match j with
  | JsonObject members => members_get members key
  | _ => None
  end.

Definition json_string_value (j : json_t) : option string :=
  match j with JsonString s => Some s | _ => None end.

Definition MASKING_DEFAULT_FILL : string := "X".

Definition KEY_APPLIES_TO : string := "applies_to".
Definition KEY_COLUMN : string := "column".
Definition KEY_DATABASE : string := "database".
Definition KEY_EXEMPTED : string := "exempted".
Definition KEY_FILL : string := "fill".
Definition KEY_REPLACE : string := "replace".
Definition KEY_RULES : string := "rules".
Definition KEY_TABLE : string := "table".
Definition KEY_VALUE : string := "value".
Definition KEY_WITH : string := "with".
Definition KEY_OBFUSCATE : string := "obfuscate".
Definition KEY_CAPTURE : string := "capture".

(** ** The rule loader *)

(** [get_accounts] on the elements of the JSON array: [None] where the
    source returns false. *)
Fixpoint get_accounts (pStrings : list json_t) : option (list Account) :=
  match pStrings with
  | [] => Some []
  | pString :: rest =>
      match json_string_value pString with
      | Some zAccount =>
          match create_account zAccount with
          | Some sAccount =>
              match get_accounts rest with
              | Some accounts => Some (sAccount :: accounts)
              | None => None
              end
          | None => None
          end
      | None => None
      end
  end.

Definition json_array_elements (j : json_t) : list json_t :=
  match j with JsonArray l => l | _ => [] end.

Definition is_null_or (check : json_t -> bool) (p : option json_t) : bool :=
  match p with None => true | Some j => check j end.

Definition is_set_and (check : json_t -> bool) (p : option json_t) : bool :=
  match p with None => false | Some j => check j end.

Definition validate_user_rules (pApplies_to pExempted : option json_t) : bool :=
  let err1 := is_set_and (fun j => negb (json_is_array j)) pApplies_to in
  let err2 := is_set_and (fun j => negb (json_is_array j)) pExempted in
  negb (err1 || err2).

Definition rule_get_object (pRule : json_t) (rule_type : string) : option json_t :=
  match json_object_get pRule rule_type with
  | None => None
  | Some pObj => if json_is_object pObj then Some pObj else None
  end.

Definition rule_check_database_options (pColumn pTable pDatabase : option json_t) : bool :=
  is_set_and json_is_string pColumn &&
  is_null_or json_is_string pTable &&
  is_null_or json_is_string pDatabase.

(** The fill of a 'with' object, the default one when the key is absent.
    The source also stores the default into the document:
    [rule_get_fill_stored] below is the document it leaves. *)
Definition rule_get_fill (pDoc : json_t) : json_t :=
  match json_object_get pDoc KEY_FILL with
  | Some pFill => pFill
  | None => JsonString MASKING_DEFAULT_FILL
  end.

(** The account vectors a rule is built with. The vectors start empty;
    [get_accounts] is reached only under [pApplies_to && pExempted]. *)
Definition rule_run_common_checks (pRule : json_t)
  : option (list Account * list Account) :=
  let pApplies_to := json_object_get pRule KEY_APPLIES_TO in
  let pExempted := json_object_get pRule KEY_EXEMPTED in
  if negb (validate_user_rules pApplies_to pExempted) then None
  else
    match pApplies_to, pExempted with
    | Some a, Some e =>
        match get_accounts (json_array_elements a) with
        | None => None
        | Some applies_to =>
            match get_accounts (json_array_elements e) with
            | None => None
            | Some exempted => Some (applies_to, exempted)
            end
        end
    | _, _ => Some ([], [])
    end.

Definition string_value_or_empty (p : option json_t) : string :=
  match p with
  | Some (JsonString s) => s
  | _ => ""
  end.

Definition rule_get_common_values (pRule : json_t)
  : option (string * string * string) :=
  let pDatabase := json_object_get pRule KEY_DATABASE in
  let pTable := json_object_get pRule KEY_TABLE in
  let pColumn := json_object_get pRule KEY_COLUMN in
  if negb (rule_check_database_options pColumn pTable pDatabase) then None
  else Some (string_value_or_empty pColumn,
             string_value_or_empty pTable,
             string_value_or_empty pDatabase).

Definition rule_get_values (pRule : json_t) (rule_type : string) : option Rule_base :=
  match rule_get_object pRule rule_type with
  | None => None
  | Some pKeyObj =>
      match rule_run_common_checks pRule with
      | None => None
      | Some (applies_to, exempted) =>
          match rule_get_common_values pKeyObj with
          | None => None
          | Some (column, table, database) =>
              Some {| m_column := column; m_table := table; m_database := database;
                      m_applies_to := applies_to; m_exempted := exempted |}
          end
      end
  end.

(** [(capture, fill)] *)
Definition rule_get_capture_fill (pRule : json_t) : option (string * string) :=
  match json_object_get pRule KEY_WITH with
  | Some pWith =>
      if negb (json_is_object pWith) then None
      else
        match rule_get_object pRule KEY_REPLACE with
        | None => None
        | Some pKeyObj =>
            let pTheFill := rule_get_fill pWith in
            let pTheCapture := json_object_get pKeyObj KEY_CAPTURE in
            match json_string_value pTheFill, pTheCapture with
            | Some fill, Some (JsonString capture) => Some (capture, fill)
            | _, _ => None
            end
        end
  | None => None
  end.

(** [(value, fill)] *)
Definition rule_get_value_fill (pRule : json_t) : option (string * string) :=
  match json_object_get pRule KEY_WITH with
  | Some pWith =>
      if negb (json_is_object pWith) then None
      else
        let pTheFill := rule_get_fill pWith in
        let pTheValue := json_object_get pWith KEY_VALUE in
        match json_string_value pTheFill, pTheValue with
        | Some fill, Some (JsonString value) => Some (value, fill)
        | _, _ => None
        end
  | None => None
  end.

Definition ReplaceRule_create_from (pRule : json_t) : option Rule :=
  match rule_get_values pRule KEY_REPLACE with
  | None => None
  | Some base =>
      match rule_get_value_fill pRule with
      | None => None
      | Some (value, fill) =>
          if negb (bool_decide (value = "")) && negb (bool_decide (fill = ""))
          then Some (ReplaceRule base value fill)
          else None
      end
  end.

Definition ObfuscateRule_create_from (pRule : json_t) : option Rule :=
  match rule_get_values pRule KEY_OBFUSCATE with
  | None => None
  | Some base => Some (ObfuscateRule base)
  end.

Definition rule_compile_pcre2_match (match_string : string) : option pcre2_code :=
  pcre2_compile match_string.

Definition CaptureRule_create_from (pRule : json_t) : option Rule :=
  match rule_get_values pRule KEY_REPLACE with
  | None => None
  | Some base =>
      match rule_get_capture_fill pRule with
      | None => None
      | Some (capture, fill) =>
          if negb (bool_decide (capture = "")) && negb (bool_decide (fill = ""))
          then match rule_compile_pcre2_match capture with
               | Some pCode => Some (CaptureRule base pCode fill)
               | None => None
               end
          else None
      end
  end.

(** One element of the 'rules' array. *)
Definition create_rule (pRule : json_t) : option Rule :=
  if json_is_object pRule then
    let pObfuscate := json_object_get pRule KEY_OBFUSCATE in
    let pReplace := json_object_get pRule KEY_REPLACE in
    match pObfuscate, pReplace with
    | None, None => None
    | Some _, _ => ObfuscateRule_create_from pRule
    | None, Some pReplace' =>
        match json_object_get pReplace' KEY_CAPTURE with
        | Some _ => CaptureRule_create_from pRule
        | None => ReplaceRule_create_from pRule
        end
    end
  else None.

(** The rules in the order of the array; [None] as soon as one element
    cannot be turned into a rule. *)
Fixpoint create_rules_from_array (pRules : list json_t) : option (list Rule) :=
  match pRules with
  | [] => Some []
  | pRule :: rest =>
      match create_rule pRule with
      | None => None
      | Some sRule =>
          match create_rules_from_array rest with
          | None => None
          | Some rules => Some (sRule :: rules)
          end
      end
  end.

Definition create_rules_from_root (pRoot : json_t) : option (list Rule) :=
  match json_object_get pRoot KEY_RULES with
  | Some (JsonArray pRules) => create_rules_from_array pRules
  | _ => None
  end.

(** ** The document the loader leaves *)

(** [rule_get_fill] changes the document it reads: a 'with' object
    without a 'fill' key gets the default fill stored under that key
    ([json_object_set_new]). The functions below follow the loader
    through the same tests and give the document as it is afterwards. *)

Fixpoint members_set (members : list (string * json_t)) (key : string) (value : json_t)
  : list (string * json_t) :=
  match members with
  | [] => [(key, value)]
  | (k, v) :: rest =>
      if bool_decide (k = key) then (k, value) :: rest
      else (k, v) :: members_set rest key value
  end.

(** [json_object_set_new]: the value under [key] is replaced, or the key
    is added; a value that is not an object stays as it is. *)
Definition json_object_set_new (j : json_t) (key : string) (value : json_t) : json_t :=
  match j with
  | JsonObject members => JsonObject (members_set members key value)
  | _ => j
  end.

(** The 'with' object after [rule_get_fill]. *)
Definition rule_get_fill_stored (pDoc : json_t) : json_t :=
  match json_object_get pDoc KEY_FILL with
  | Some _ => pDoc
  | None => json_object_set_new pDoc KEY_FILL (JsonString MASKING_DEFAULT_FILL)
  end.

(** The rule element after [rule_get_value_fill]: [rule_get_fill] runs
    once 'with' is known to be an object. *)
Definition rule_get_value_fill_stored (pRule : json_t) : json_t :=
  match json_object_get pRule KEY_WITH with
  | Some pWith =>
      if negb (json_is_object pWith) then pRule
      else json_object_set_new pRule KEY_WITH (rule_get_fill_stored pWith)
  | None => pRule
  end.

(** The rule element after [rule_get_capture_fill]: [rule_get_fill] runs
    once 'with' is known to be an object and 'replace' has been found. *)
Definition rule_get_capture_fill_stored (pRule : json_t) : json_t :=
  match json_object_get pRule KEY_WITH with
  | Some pWith =>
      if negb (json_is_object pWith) then pRule
      else
        match rule_get_object pRule KEY_REPLACE with
        | None => pRule
        | Some _ => json_object_set_new pRule KEY_WITH (rule_get_fill_stored pWith)
        end
  | None => pRule
  end.

(** The rule element after [ReplaceRule::create_from]: the fill is read
    only when [rule_get_values] has succeeded. *)
Definition ReplaceRule_create_from_stored (pRule : json_t) : json_t :=
  match rule_get_values pRule KEY_REPLACE with
  | None => pRule
  | Some _ => rule_get_value_fill_stored pRule
  end.

Definition CaptureRule_create_from_stored (pRule : json_t) : json_t :=
  match rule_get_values pRule KEY_REPLACE with
  | None => pRule
  | Some _ => rule_get_capture_fill_stored pRule
  end.

(** One element of the 'rules' array after the loop body has run on it.
    [ObfuscateRule::create_from] reads no fill. *)
Definition create_rule_stored (pRule : json_t) : json_t :=
  if json_is_object pRule then
    let pObfuscate := json_object_get pRule KEY_OBFUSCATE in
    let pReplace := json_object_get pRule KEY_REPLACE in
    match pObfuscate, pReplace with
    | None, None => pRule
    | Some _, _ => pRule
    | None, Some pReplace' =>
        match json_object_get pReplace' KEY_CAPTURE with
        | Some _ => CaptureRule_create_from_stored pRule
        | None => ReplaceRule_create_from_stored pRule
        end
    end
  else pRule.

(** The elements of the array after [create_rules_from_array]: the loop
    stops at the first element that gives no rule and leaves the
    elements after it as they were. *)
Fixpoint create_rules_from_array_stored (pRules : list json_t) : list json_t :=
  match pRules with
  | [] => []
  | pRule :: rest =>
      match create_rule pRule with
      | None => create_rule_stored pRule :: rest
      | Some _ => create_rule_stored pRule :: create_rules_from_array_stored rest
      end
  end.

Definition create_rules_from_root_stored (pRoot : json_t) : json_t :=
  match json_object_get pRoot KEY_RULES with
  | Some (JsonArray pRules) =>
      json_object_set_new pRoot KEY_RULES
        (JsonArray (create_rules_from_array_stored pRules))
  | _ => pRoot
  end.

(** ** MaskingRules *)

Record MaskingRules : Type := {
  m_pRoot : json_t;
  m_rules : list Rule
}.

(** The object keeps the root it was given ([json_incref]), which by then
    is the document as [create_rules_from_root] has left it. *)
Definition MaskingRules_create_from (pRoot : json_t) : option MaskingRules :=
  match create_rules_from_root pRoot with
  | Some rules =>
      Some {| m_pRoot := create_rules_from_root_stored pRoot; m_rules := rules |}
  | None => None
  end.

(** [MaskingRules::parse] and [MaskingRules::load] hand the document that
    Jansson's [json_loads] / [json_loadf] returns to [create_from]. *)
Definition MaskingRules_parse (json_loads : string -> option json_t)
           (zJson : string) : option MaskingRules :=
  match json_loads zJson with
  | Some pRoot => MaskingRules_create_from pRoot
  | None => None
  end.

Definition MaskingRules_get_rule_for (rules : MaskingRules) (column_def : ColumnDef)
           (zUser zHost : string) : option Rule :=
  let matcher := fun sRule => Rule_matches sRule column_def zUser zHost in
  let i := find_if matcher (m_rules rules) in
  if negb (i =? length (m_rules rules))%nat
  then m_rules rules !! i
  else None.

(** The invariant the three [create_from] functions establish before they
    construct a rule. *)
Definition Rule_wf (r : Rule) : Prop :=
  match r with
  | ReplaceRule _ m_value m_fill => m_value <> "" /\ m_fill <> ""
  | ObfuscateRule _ => True
  | CaptureRule _ _ m_fill => m_fill <> ""
  end.

End Masking.

(** ** A PCRE2 instance: runs of decimal digits *)

(** A small matcher that honours the interface: the code [k] stands for
    the pattern [\d{k}], and the only pattern it compiles is [\d{4}]. *)

Definition is_digit (c : ascii) : bool :=
  (48 <=? char_code c)%Z && (char_code c <=? 57)%Z.

(** The first position, counted from [i] at the head of [l], where [k]
    digits stand in a row. *)
Fixpoint find_digit_run (k : nat) (l : bytes) (i : nat) : option nat :=
  if (length (take k l) =? k)%nat && forallb is_digit (take k l) then Some i
  else match l with
       | [] => None
       | _ :: l' => find_digit_run k l' (S i)
       end.

Definition digit_run_match (k : nat) (subject : bytes) (startoffset : nat)
  : Z * (nat * nat) :=
  if bool_decide (length subject < startoffset) then (PCRE2_ERROR_BADOFFSET, (0, 0))
  else match find_digit_run k (drop startoffset subject) startoffset with
       | Some i => (1%Z, (i, i + k))
       | None => (PCRE2_ERROR_NOMATCH, (0, 0))
       end.

Definition digit_run_compile (pattern : string) : option nat :=
  if bool_decide (pattern = "\d{4}") then Some 4 else None.

Definition digit_run_pcre2 : PCRE2 :=
  {| pcre2_code := nat;
     pcre2_compile := digit_run_compile;
     pcre2_match_data_create_from_pattern := fun _ => true;
     pcre2_match := digit_run_match |}.

(** The compiled [\d{4}]. *)
Definition four_digits : @pcre2_code digit_run_pcre2 := 4.

(** ** Sample documents *)

(** A rules document whose single rule lists accounts under applies_to
    and has no exempted key. *)
Definition rule_applies_to_only : json_t :=
  JsonObject
    [ ("replace", JsonObject [("column", JsonString "ssn")]);
      ("with", JsonObject [("value", JsonString "XXXXXXXXX")]);
      ("applies_to", JsonArray [JsonString "'alice'@'host'"]) ].

Definition rules_applies_to_only : json_t :=
  JsonObject [("rules", JsonArray [rule_applies_to_only])].

Definition ssn_column : ColumnDef :=
  {| schema := "bank"; org_table := "users"; org_name := "ssn" |}.

(** [rules_applies_to_only] as the loader leaves it: the 'with' object has
    got the default fill. *)
Definition rules_applies_to_only_stored : json_t :=
  JsonObject
    [("rules",
      JsonArray
        [JsonObject
           [ ("replace", JsonObject [("column", JsonString "ssn")]);
             ("with", JsonObject [("value", JsonString "XXXXXXXXX");
                                  ("fill", JsonString "X")]);
             ("applies_to", JsonArray [JsonString "'alice'@'host'"]) ]])].

(** A document with three rules: the first is for another column, the
    second and the third are both for the column ssn. *)
Definition rules_three : json_t :=
  JsonObject
    [("rules",
      JsonArray
        [ JsonObject
            [ ("replace", JsonObject [("column", JsonString "name")]);
              ("with", JsonObject [("value", JsonString "NNNN")]) ];
          JsonObject
            [ ("replace", JsonObject [("column", JsonString "ssn")]);
              ("with", JsonObject [("value", JsonString "XXXXXXXXX");
                                   ("fill", JsonString "#")]) ];
          JsonObject
            [ ("obfuscate", JsonObject [("column", JsonString "ssn")]) ] ])].

(** ** A PCRE2 instance: two patterns that reach [\K] in a lookaround *)

(** The values libpcre2 reports, compiled with options 0, for
    - [(?(DEFINE)(\K.))(?<=(?1))]: at the first position [p >= 1], not
      before [startoffset], whose preceding byte is not a newline, an
      empty match whose start [\K] has moved back to [p - 1]: the pair
      [(p - 1, p)];
    - [(?=(?1))|(ab\K)]: at the first position [p], not before
      [startoffset], where "ab" stands, a match that ends at [p] and
      whose start [\K] has moved on to [p + 2]: the pair [(p + 2, p)].
    In both cases the return code is 1. *)
Inductive bsk_code : Type :=
| LOOKBEHIND_K
| LOOKAHEAD_K.

Definition LOOKBEHIND_K_pattern : string := "(?(DEFINE)(\K.))(?<=(?1))".
Definition LOOKAHEAD_K_pattern : string := "(?=(?1))|(ab\K)".

Definition bsk_compile (pattern : string) : option bsk_code :=
  if bool_decide (pattern = LOOKBEHIND_K_pattern) then Some LOOKBEHIND_K
  else if bool_decide (pattern = LOOKAHEAD_K_pattern) then Some LOOKAHEAD_K
  else None.

Definition bsk_matches_at (code : bsk_code) (subject : bytes) (p : nat) : bool :=
  match code with
  | LOOKBEHIND_K =>
      match p with
      | O => false
      | S p' =>
          match subject !! p' with
          | Some c => negb (Ascii.eqb c "010")
          | None => false
          end
      end
  | LOOKAHEAD_K =>
      match subject !! p, subject !! S p with
      | Some c1, Some c2 => Ascii.eqb c1 "a" && Ascii.eqb c2 "b"
      | _, _ => false
      end
  end.

(** The first of the positions [p], [p + 1], ..., [p + n - 1] at which
    the pattern matches. *)
Fixpoint bsk_find (code : bsk_code) (subject : bytes) (p : nat) (n : nat) : option nat :=
  match n with
  | O => None
  | S n' =>
      if bsk_matches_at code subject p then Some p
      else bsk_find code subject (S p) n'
  end.

Definition bsk_match (code : bsk_code) (subject : bytes) (startoffset : nat)
  : Z * (nat * nat) :=
  if bool_decide (length subject < startoffset) then (PCRE2_ERROR_BADOFFSET, (0, 0))
  else
    match bsk_find code subject startoffset (S (length subject - startoffset)) with
    | Some p =>
        match code with
        | LOOKBEHIND_K => (1%Z, (p - 1, p))
        | LOOKAHEAD_K => (1%Z, (p + 2, p))
        end
    | None => (PCRE2_ERROR_NOMATCH, (0, 0))
    end.

Definition bsk_pcre2 : PCRE2 :=
  {| pcre2_code := bsk_code;
     pcre2_compile := bsk_compile;
     pcre2_match_data_create_from_pattern := fun _ => true;
     pcre2_match := bsk_match |}.

Definition lookbehind_k : @pcre2_code bsk_pcre2 := LOOKBEHIND_K.
Definition lookahead_k : @pcre2_code bsk_pcre2 := LOOKAHEAD_K.

(** A rule element whose capture pattern is [LOOKAHEAD_K_pattern]. *)
Definition rule_capture_lookahead_k : json_t :=
  JsonObject
    [ ("replace", JsonObject [("column", JsonString "ssn");
                              ("capture", JsonString LOOKAHEAD_K_pattern)]);
      ("with", JsonObject [("fill", JsonString "X")]) ].

(** A rule element whose capture pattern is [LOOKBEHIND_K_pattern]. *)
Definition rule_capture_lookbehind_k : json_t :=
  JsonObject
    [ ("replace", JsonObject [("column", JsonString "ssn");
                              ("capture", JsonString LOOKBEHIND_K_pattern)]);
      ("with", JsonObject [("fill", JsonString "X")]) ].

(** ** The read/write split router *)

Module RWSplit.

(** *** Types of the router's header *)

Inductive backend_type_t : Type :=
| BE_UNDEFINED
| BE_MASTER
| BE_SLAVE.

Definition BE_JOINED : backend_type_t := BE_MASTER.

(** [route_target_t]: bits of a target mask. *)
Definition TARGET_UNDEFINED : Z := 0x00%Z.
Definition TARGET_MASTER : Z := 0x01%Z.
Definition TARGET_SLAVE : Z := 0x02%Z.
Definition TARGET_NAMED_SERVER : Z := 0x04%Z.
Definition TARGET_ALL : Z := 0x08%Z.
Definition TARGET_RLAG_MAX : Z := 0x10%Z.

Definition TARGET_IS_MASTER (t : Z) : bool := negb (Z.land t TARGET_MASTER =? 0)%Z.
Definition TARGET_IS_SLAVE (t : Z) : bool := negb (Z.land t TARGET_SLAVE =? 0)%Z.
Definition TARGET_IS_ALL (t : Z) : bool := negb (Z.land t TARGET_ALL =? 0)%Z.

Inductive select_criteria_t : Type :=
| UNDEFINED_CRITERIA
| LEAST_GLOBAL_CONNECTIONS
| LEAST_ROUTER_CONNECTIONS
| LEAST_BEHIND_MASTER
| LEAST_CURRENT_OPERATIONS.

Definition DEFAULT_CRITERIA : select_criteria_t := LEAST_CURRENT_OPERATIONS.

Inductive failure_mode : Type :=
| RW_FAIL_INSTANTLY
| RW_FAIL_ON_WRITE
| RW_ERROR_ON_WRITE.

Inductive ld_state : Type :=
| LOAD_DATA_INACTIVE
| LOAD_DATA_START
| LOAD_DATA_ACTIVE
| LOAD_DATA_END.

Inductive reply_state_t : Type :=
| REPLY_STATE_START
| REPLY_STATE_DONE
| REPLY_STATE_RSET_COLDEF
| REPLY_STATE_RSET_ROWS.

(** [mxs_target_t], the values of use_sql_variables_in. *)
Inductive mxs_target_t : Type :=
| TYPE_MASTER
| TYPE_ALL.

Record rwsplit_config_t : Type := {
  rw_max_slave_conn_percent : Z;
  max_slave_connections : Z;
  slave_selection_criteria : select_criteria_t;
  max_slave_replication_lag : Z;
  use_sql_variables_in : mxs_target_t;
  max_sescmd_history : Z;
  disable_sescmd_history : bool;
  master_accept_reads : bool;
  strict_multi_stmt : bool;
  master_failure_mode : failure_mode;
  retry_failed_reads : bool;
  connection_keepalive : Z
}.

(** Modelled from the spec: what the query classifier reports about a
    packet (section 4.1; the SQL parser and the classifier are not part
    of the excerpt). The router sees these facts. *)
Inductive statement_kind : Type :=
| STMT_SELECT          (* a pure SELECT *)
| STMT_WRITE           (* INSERT, UPDATE, DELETE, DDL *)
| STMT_SESSION         (* SET, USE, charset change, statement preparation *)
| STMT_TRANSACTION.    (* BEGIN, COMMIT, ROLLBACK *)

Inductive mysql_command : Type :=
| COM_QUERY
| COM_INIT_DB
| COM_CHANGE_USER
| COM_STMT_PREPARE.

Record packet : Type := {
  pkt_command : mysql_command;
  pkt_sql : string;
  pkt_kind : statement_kind;
  pkt_modifies_user_variable : bool;
  pkt_tables : list string;
  pkt_is_multi_stmt : bool
}.

(** [SessionCommand] (session_command.cc): the buffer, the command byte,
    the position and the reply flag. *)
Record SessionCommand : Type := {
  m_buffer : packet;
  m_command : mysql_command;
  m_pos : N;
  m_replySent : bool
}.

Definition mark_reply_received (c : SessionCommand) : SessionCommand :=
  {| m_buffer := m_buffer c; m_command := m_command c; m_pos := m_pos c;
     m_replySent := true |}.

Definition is_reply_received (c : SessionCommand) : bool := m_replySent c.
Definition get_command (c : SessionCommand) : mysql_command := m_command c.
Definition get_position (c : SessionCommand) : N := m_pos c.

Definition SessionCommand_new (buffer : packet) (id : N) : SessionCommand :=
  {| m_buffer := buffer; m_command := pkt_command buffer; m_pos := id;
     m_replySent := false |}.

(** [RWBackend]. Its base class [mxs::Backend] is not part of the
    excerpt.
    Modelled from the spec: the attributes of a backend handle
    (section 3): server name and role, the in-use, closed and
    fatal-failure flags, and the counter the selection criterion
    compares. *)
Record RWBackend : Type := {
  be_name : string;
  be_type : backend_type_t;
  be_in_use : bool;
  be_closed : bool;
  be_fatal_failure : bool;
  be_load : nat;                       (* the value the selection criterion compares *)
  m_reply_state : reply_state_t
}.

Record ROUTER_CLIENT_SES : Type := {
  rses_closed : bool;
  backends : list RWBackend;
  current_master : option nat;         (* position in [backends] *)
  target_node : option nat;
  rses_config : rwsplit_config_t;
  load_data_state : ld_state;
  have_tmp_tables : bool;
  pos_generator : N;
  expected_responses : Z;
  query_queue : list packet;
  temp_tables : list string;
  sescmd_list : list SessionCommand
}.

(** *** Routing, section 4 and 7 of the specification *)

(** Modelled from the spec: the error kinds of section 7 that routing a
    query can end in. *)
Inductive error_kind : Type :=
| CLASSIFICATION_REJECT
| NO_BACKEND.

(** Modelled from the spec: a packet the router synthesizes for the
    client. *)
Inductive client_packet : Type :=
| ERR_PACKET (message : string).

(** Modelled from the spec: the query classifier of the router (its
    source file is not part of the excerpt). Section 4.1: session
    commands are broadcast; a pure SELECT goes to a slave unless it
    touches a known temporary table; a SELECT that modifies a user
    variable under use_sql_variables_in = all is rejected outright;
    writes and transactions go to the master. [None] is the rejection. *)
Definition classify (config : rwsplit_config_t) (tmp : list string) (p : packet)
  : option Z :=
  match pkt_command p with
  | COM_INIT_DB | COM_CHANGE_USER | COM_STMT_PREPARE => Some TARGET_ALL
  | COM_QUERY =>
      match pkt_kind p with
      | STMT_SESSION => Some TARGET_ALL
      | STMT_SELECT =>
          if pkt_modifies_user_variable p then
            match use_sql_variables_in config with
            | TYPE_ALL => None
            | TYPE_MASTER => Some TARGET_MASTER
            end
          else if existsb (fun t => bool_decide (t ∈ tmp)) (pkt_tables p)
          then Some TARGET_MASTER
          else if pkt_is_multi_stmt p && strict_multi_stmt config
          then Some TARGET_MASTER
          else Some TARGET_SLAVE
      | STMT_WRITE | STMT_TRANSACTION => Some TARGET_MASTER
      end
  end.

(** Modelled from the spec: a live, unclosed backend handle that has not
    failed (section 4.3). *)
Definition backend_usable (b : RWBackend) : bool :=
  be_in_use b && negb (be_closed b) && negb (be_fatal_failure b).

(** Positions of the elements of [l] that satisfy [f]. *)
Definition positions {A : Type} (f : A -> bool) (l : list A) : list nat :=
  (fun ib => fst ib) <$> filter (fun ib => f (snd ib) = true) (imap (fun i b => (i, b)) l).

(** Modelled from the spec: the ascending order of section 4.2, as the
    position with the least load among [candidates]. *)
Fixpoint least_loaded (bs : list RWBackend) (candidates : list nat) : option nat :=
  match candidates with
  | [] => None
  | i :: rest =>
      match least_loaded bs rest with
      | None => Some i
      | Some j =>
          match bs !! i, bs !! j with
          | Some bi, Some bj => if (be_load bi <=? be_load bj)%nat then Some i else Some j
          | _, _ => Some j
          end
      end
  end.

(** Modelled from the spec: the route selector (section 4.2). A master
    target is the current master when it is usable; a slave target is
    the usable slave that is least by the configured criterion, the
    master when no slave qualifies and master_accept_reads is set, and
    NO_BACKEND otherwise. *)
Definition select_backend (ses : ROUTER_CLIENT_SES) (target : Z) : option nat :=
  let master :=
    match current_master ses with
    | Some m =>
        match backends ses !! m with
        | Some b => if backend_usable b then Some m else None
        | None => None
        end
    | None => None
    end in
  if TARGET_IS_MASTER target then master
  else
    let slaves :=
      positions (fun b => backend_usable b &&
                          match be_type b with BE_SLAVE => true | _ => false end)
                (backends ses) in
    match least_loaded (backends ses) slaves with
    | Some i => Some i
    | None => if master_accept_reads (rses_config ses) then master else None
    end.

Record route_result : Type := {
  rr_session : ROUTER_CLIENT_SES;
  rr_sent : list (nat * packet);       (* backend position, packet written to it *)
  rr_client : list client_packet;      (* packets synthesized for the client *)
  rr_error : option error_kind;
  rr_log : list string
}.

Definition with_queue (ses : ROUTER_CLIENT_SES) (q : list packet) : ROUTER_CLIENT_SES :=
  {| rses_closed := rses_closed ses; backends := backends ses;
     current_master := current_master ses; target_node := target_node ses;
     rses_config := rses_config ses; load_data_state := load_data_state ses;
     have_tmp_tables := have_tmp_tables ses; pos_generator := pos_generator ses;
     expected_responses := expected_responses ses; query_queue := q;
     temp_tables := temp_tables ses; sescmd_list := sescmd_list ses |}.

Definition with_dispatch (ses : ROUTER_CLIENT_SES) (bs : list RWBackend)
           (pos : N) (expected : Z) (log : list SessionCommand) : ROUTER_CLIENT_SES :=
  {| rses_closed := rses_closed ses; backends := bs;
     current_master := current_master ses; target_node := target_node ses;
     rses_config := rses_config ses; load_data_state := load_data_state ses;
     have_tmp_tables := have_tmp_tables ses; pos_generator := pos;
     expected_responses := expected; query_queue := query_queue ses;
     temp_tables := temp_tables ses; sescmd_list := log |}.

Definition start_reply (b : RWBackend) : RWBackend :=
  {| be_name := be_name b; be_type := be_type b; be_in_use := be_in_use b;
     be_closed := be_closed b; be_fatal_failure := be_fatal_failure b;
     be_load := be_load b; m_reply_state := REPLY_STATE_START |}.

(** Modelled from the spec: the recipients of a broadcast are the live,
    unclosed backend handles whose reply state is DONE (section 4.3,
    step 3). *)
Definition broadcast_recipient (b : RWBackend) : bool :=
  backend_usable b &&
  match m_reply_state b with REPLY_STATE_DONE => true | _ => false end.

(** The message the bug694 test looks for in the log. *)
Definition reject_message : string :=
  "SELECT with session data modification is not supported if configuration parameter use_sql_variables_in=all".

(** Modelled from the spec: route_query of the router session
    (section 4.3, "Routing a query", and the table of section 7), for a
    statement outside a LOAD DATA transfer.
    1. While replies are outstanding the packet is queued.
    2. The packet is classified; a rejected shape is answered with a
       synthesized ERR packet, logged once, and the session stays as it
       is.
    3. A session command gets a position, is appended to the log and is
       broadcast to every usable backend whose reply state is DONE.
    4. Any other statement goes to the one backend the selector picks.
    5. Without a backend the client gets an ERR packet (NO_BACKEND). *)
Definition route_query (ses : ROUTER_CLIENT_SES) (p : packet) : route_result :=
  if (0 <? expected_responses ses)%Z then
    {| rr_session := with_queue ses (query_queue ses ++ [p]);
       rr_sent := []; rr_client := []; rr_error := None; rr_log := [] |}
  else
    match classify (rses_config ses) (temp_tables ses) p with
    | None =>
        {| rr_session := ses; rr_sent := [];
           rr_client := [ERR_PACKET reject_message];
           rr_error := Some CLASSIFICATION_REJECT;
           rr_log := [reject_message] |}
    | Some target =>
        if TARGET_IS_ALL target then
          let recipients := positions broadcast_recipient (backends ses) in
          let pos := N.succ (pos_generator ses) in
          let bs := (fun b => if broadcast_recipient b then start_reply b else b)
                      <$> backends ses in
          match recipients with
          | [] =>
              {| rr_session := ses; rr_sent := [];
                 rr_client := [ERR_PACKET "no backend"];
                 rr_error := Some NO_BACKEND; rr_log := [] |}
          | _ =>
              {| rr_session :=
                   with_dispatch ses bs pos (Z.of_nat (length recipients))
                                 (sescmd_list ses ++ [SessionCommand_new p pos]);
                 rr_sent := (fun i => (i, p)) <$> recipients;
                 rr_client := []; rr_error := None; rr_log := [] |}
          end
        else
          match select_backend ses target with
          | Some i =>
              {| rr_session :=
                   with_dispatch ses (alter start_reply i (backends ses))
                                 (pos_generator ses) 1 (sescmd_list ses);
                 rr_sent := [(i, p)];
                 rr_client := []; rr_error := None; rr_log := [] |}
          | None =>
              {| rr_session := ses; rr_sent := [];
                 rr_client := [ERR_PACKET "no backend"];
                 rr_error := Some NO_BACKEND; rr_log := [] |}
          end
    end.

(** *** The session of the bug694 regression test *)

(** use_sql_variables_in=all, a master and a slave, both idle. *)
Definition bug694_config : rwsplit_config_t :=
  {| rw_max_slave_conn_percent := 0;
     max_slave_connections := 1;
     slave_selection_criteria := DEFAULT_CRITERIA;
     max_slave_replication_lag := (-1);
     use_sql_variables_in := TYPE_ALL;
     max_sescmd_history := 50;
     disable_sescmd_history := false;
     master_accept_reads := false;
     strict_multi_stmt := false;
     master_failure_mode := RW_FAIL_INSTANTLY;
     retry_failed_reads := true;
     connection_keepalive := 0 |}.

Definition bug694_backend (name : string) (type : backend_type_t) : RWBackend :=
  {| be_name := name; be_type := type; be_in_use := true; be_closed := false;
     be_fatal_failure := false; be_load := 0; m_reply_state := REPLY_STATE_DONE |}.

Definition bug694_session : ROUTER_CLIENT_SES :=
  {| rses_closed := false;
     backends := [bug694_backend "server1" BE_MASTER; bug694_backend "server2" BE_SLAVE];
     current_master := Some 0;
     target_node := None;
     rses_config := bug694_config;
     load_data_state := LOAD_DATA_INACTIVE;
     have_tmp_tables := false;
     pos_generator := 0;
     expected_responses := 0;
     query_queue := [];
     temp_tables := [];
     sescmd_list := [] |}.

Definition bug694_select : packet :=
  {| pkt_command := COM_QUERY;
     pkt_sql := "SELECT @a:=@a+1 as a, test.b FROM test;";
     pkt_kind := STMT_SELECT;
     pkt_modifies_user_variable := true;
     pkt_tables := ["test"];
     pkt_is_multi_stmt := false |}.

Definition bug694_use : packet :=
  {| pkt_command := COM_QUERY;
     pkt_sql := "USE test";
     pkt_kind := STMT_SESSION;
     pkt_modifies_user_variable := false;
     pkt_tables := [];
     pkt_is_multi_stmt := false |}.

End RWSplit.

(** ** A MysqlUtils instance *)

(** Helpers that honour the interface on names without quotes: nothing
    is trimmed, and a name is a pattern when it holds a [%] or a [_]. *)
Fixpoint has_wildcard (s : string) : bool :=
  match s with
  | EmptyString => false
  | String c rest =>
      Ascii.eqb c "%"%char || Ascii.eqb c "_"%char || has_wildcard rest
  end.

Definition plain_mysql_utils : MysqlUtils :=
  {| mxs_mysql_trim_quotes := fun s => Some s;
     mxs_mysql_name_to_pcre := fun s =>
       (s, if has_wildcard s then MXS_MYSQL_NAME_WITH_WILDCARD
           else MXS_MYSQL_NAME_WITHOUT_WILDCARD) |}.

(** ** Names of the router's header *)

Module RWSplitNames.

Import RWSplit.

(** [strncmp(s, name, strlen(name)) == 0]: [name] is a prefix of [s]. *)
Definition strncmp_is_0 (s name : string) : bool := String.prefix name s.

(** The macro [GET_SELECT_CRITERIA]. *)
Definition GET_SELECT_CRITERIA (s : string) : select_criteria_t :=
  if strncmp_is_0 s "LEAST_GLOBAL_CONNECTIONS" then LEAST_GLOBAL_CONNECTIONS
  else if strncmp_is_0 s "LEAST_BEHIND_MASTER" then LEAST_BEHIND_MASTER
  else if strncmp_is_0 s "LEAST_ROUTER_CONNECTIONS" then LEAST_ROUTER_CONNECTIONS
  else if strncmp_is_0 s "LEAST_CURRENT_OPERATIONS" then LEAST_CURRENT_OPERATIONS
  else UNDEFINED_CRITERIA.

Definition select_criteria_to_str (type : select_criteria_t) : string :=
  match type with
  | LEAST_GLOBAL_CONNECTIONS => "LEAST_GLOBAL_CONNECTIONS"
  | LEAST_ROUTER_CONNECTIONS => "LEAST_ROUTER_CONNECTIONS"
  | LEAST_BEHIND_MASTER => "LEAST_BEHIND_MASTER"
  | LEAST_CURRENT_OPERATIONS => "LEAST_CURRENT_OPERATIONS"
  | _ => "UNDEFINED_CRITERIA"
  end.

Definition rstostr (state : reply_state_t) : string :=
  match state with
  | REPLY_STATE_START => "REPLY_STATE_START"
  | REPLY_STATE_DONE => "REPLY_STATE_DONE"
  | REPLY_STATE_RSET_COLDEF => "REPLY_STATE_RSET_COLDEF"
  | REPLY_STATE_RSET_ROWS => "REPLY_STATE_RSET_ROWS"
  end.

Definition failure_mode_to_str (type : failure_mode) : string :=
  match type with
  | RW_FAIL_INSTANTLY => "fail_instantly"
  | RW_FAIL_ON_WRITE => "fail_on_write"
  | RW_ERROR_ON_WRITE => "error_on_write"
  end.

End RWSplitNames.

(** ** A payload with a NUL byte in it *)

Definition payload_with_nul : list ascii := chars "1234" ++ [NUL] ++ chars "5678".

(** * Properties *)

(** ** Fill tiling *)

Lemma tile_from_length fill p n : length (tile_from fill p n) = n.
Proof. unfold tile_from. by rewrite length_fmap, length_seq. Qed.

Lemma tile_from_S fill p n c :
  fill !! p = Some c ->
  tile_from fill p (S n) =
  c :: tile_from fill (if bool_decide (S p = length fill) then 0 else S p) n.
Proof.
  intros Hc. pose proof (lookup_lt_Some _ _ _ Hc) as Hlt.
  unfold tile_from. simpl seq. rewrite fmap_cons. f_equal.
  - rewrite Nat.add_0_r, Nat.mod_small by done.
    by apply nth_lookup_Some.
  - rewrite <- fmap_S_seq, <- list_fmap_compose.
    apply list_fmap_ext. intros _ k _. simpl. f_equal.
    case_bool_decide as Hp.
    + replace (p + S k) with (k + 1 * length fill) by lia.
      by rewrite Nat.Div0.mod_add.
    + f_equal. lia.
Qed.

Lemma fill_buffer_loop_spec n : forall fill p s o,
  p < length fill -> o + n <= length s ->
  fill_buffer_loop fill p s o n =
  Some (take o s ++ tile_from fill p n ++ drop (o + n) s).
Proof.
  induction n as [|n IH]; intros fill p s o Hp Ho; cbn [fill_buffer_loop].
  - change (tile_from fill p 0) with (@nil ascii).
    by rewrite Nat.add_0_r, app_nil_l, take_drop.
  - destruct (lookup_lt_is_Some_2 fill p Hp) as [c Hc]. rewrite Hc.
    rewrite bool_decide_eq_true_2 by lia.
    rewrite IH.
    + rewrite (tile_from_S _ _ _ _ Hc).
      rewrite (take_S_r _ _ c) by (apply list_lookup_insert_eq; lia).
      rewrite take_insert_ge by lia.
      rewrite drop_insert_lt by lia.
      replace (o + S n) with (S o + n) by lia.
      by rewrite <- app_assoc.
    + case_bool_decide; lia.
    + rewrite length_insert. lia.
Qed.

Lemma fill_buffer_spec fill s o_first o_last :
  fill <> [] -> o_first <= o_last -> o_last <= length s ->
  fill_buffer fill s o_first o_last =
  Some (take o_first s ++ tile fill (o_last - o_first) ++ drop o_last s).
Proof.
  intros Hf Ho Hl. unfold fill_buffer, tile.
  rewrite bool_decide_eq_true_2 by done.
  rewrite fill_buffer_loop_spec.
  - by replace (o_first + (o_last - o_first)) with o_last by lia.
  - destruct fill; [done | simpl; lia].
  - lia.
Qed.

Lemma fill_buffer_loop_length fill n : forall p s o s',
  fill_buffer_loop fill p s o n = Some s' -> length s' = length s.
Proof.
  induction n as [|n IH]; intros p s o s'; cbn [fill_buffer_loop].
  - by intros [= ->].
  - destruct (fill !! p); [|done]. case_bool_decide; [|done].
    intros Hs. apply IH in Hs. by rewrite length_insert in Hs.
Qed.

Lemma fill_buffer_length fill s o_first o_last s' :
  fill_buffer fill s o_first o_last = Some s' -> length s' = length s.
Proof.
  unfold fill_buffer. case_bool_decide; [|done].
  apply fill_buffer_loop_length.
Qed.

Lemma chars_length (s : string) : length (chars s) = String.length s.
Proof. induction s as [|c s IH]; simpl; [done | by rewrite IH]. Qed.

Lemma chars_nonempty (s : string) : s <> "" -> chars s <> [].
Proof. by destruct s. Qed.

(** ** Replace *)

(** Scenario E of the specification. *)
Example ReplaceRule_rewrite_ssn_same_length :
  ReplaceRule_rewrite "XXXXXXXXX" "X" (chars "123456789") = Done (chars "XXXXXXXXX", []).
Proof. reflexivity. Qed.

Example ReplaceRule_rewrite_ssn_tiled :
  ReplaceRule_rewrite "XXXXXXXXX" "X" (chars "42") = Done (chars "XX", []).
Proof. reflexivity. Qed.

Example ReplaceRule_rewrite_tiles_long_fill :
  ReplaceRule_rewrite "secret" "ab" (chars "12345") = Done (chars "ababa", []).
Proof. reflexivity. Qed.

Lemma std_copy_spec (src : list ascii) : forall s o,
  o + length src <= length s ->
  std_copy src s o = Some (take o s ++ src ++ drop (o + length src) s).
Proof.
  induction src as [|c src IH]; intros s o Hlen; cbn [std_copy].
  - by rewrite Nat.add_0_r, app_nil_l, take_drop.
  - simpl in Hlen. rewrite bool_decide_eq_true_2 by lia.
    rewrite IH by (rewrite length_insert; lia).
    rewrite (take_S_r _ _ c) by (apply list_lookup_insert_eq; lia).
    rewrite take_insert_ge by lia.
    rewrite drop_insert_lt by lia.
    replace (o + length (c :: src)) with (S o + length src) by (simpl; lia).
    by rewrite <- app_assoc.
Qed.

Lemma std_copy_all (src s : list ascii) :
  length src = length s -> std_copy src s 0 = Some src.
Proof.
  intros Hlen. rewrite std_copy_spec by lia.
  by rewrite take_0, app_nil_l, Nat.add_0_l, Hlen, drop_all, app_nil_r.
Qed.

(** The three ways through [ReplaceRule::rewrite]. *)
Lemma ReplaceRule_rewrite_cases (v f : string) (p : list ascii) :
  (String.length v = length p ->
   exists log, ReplaceRule_rewrite v f p = Done (chars v, log)) /\
  (String.length v <> length p -> f <> "" ->
   ReplaceRule_rewrite v f p = Done (tile (chars f) (length p), [])) /\
  (String.length v <> length p -> f = "" ->
   exists log, ReplaceRule_rewrite v f p = Done (p, log)).
Proof.
  assert (forall q : list ascii, f <> "" ->
            fill_buffer (chars f) q 0 (length q) = Some (tile (chars f) (length q)))
    as Hfill.
  { intros q Hf. rewrite fill_buffer_spec by (auto using chars_nonempty; lia).
    by rewrite take_0, app_nil_l, Nat.sub_0_r, drop_all, app_nil_r. }
  unfold ReplaceRule_rewrite. split_and!.
  - intros Hlen. destruct (decide (v = "")) as [->|Hv].
    + destruct p; [|done]. rewrite (bool_decide_eq_true_2 ("" = "")) by done.
      cbn [negb]. case_bool_decide as Hf; cbn [negb].
      * by eexists.
      * rewrite Hfill by done. by eexists.
    + rewrite (bool_decide_eq_false_2 (v = "")) by done. cbn [negb].
      rewrite bool_decide_eq_true_2 by done.
      rewrite std_copy_all by (by rewrite chars_length).
      cbn [negb]. by eexists.
  - intros Hlen Hf.
    rewrite (bool_decide_eq_false_2 (String.length v = length p)) by done.
    destruct (negb (bool_decide (v = ""))); cbn [negb];
      rewrite (bool_decide_eq_false_2 (f = "")) by done; cbn [negb];
      by rewrite Hfill.
  - intros Hlen ->.
    rewrite (bool_decide_eq_false_2 (String.length v = length p)) by done.
    destruct (negb (bool_decide (v = ""))); cbn [negb];
      rewrite (bool_decide_eq_true_2 ("" = "")) by done; cbn [negb];
      by eexists.
Qed.

(** C1: a Replace rule with value [v] and fill [f] rewrites a payload [p]
    of the length of [v] to [v]; a payload of another length is
    overwritten by [f] tiled over its whole length (ssn "42" with fill
    "X" becomes "XX"); and when that is not possible either ([f] empty)
    the payload is returned as it was. *)
Theorem ReplaceRule_rewrite_spec (v f : string) (p : list ascii) :
  (String.length v = length p ->
   exists log, ReplaceRule_rewrite v f p = Done (chars v, log)) /\
  (String.length v <> length p -> f <> "" ->
   ReplaceRule_rewrite v f p = Done (tile (chars f) (length p), [])) /\
  (String.length v <> length p -> f = "" ->
   exists log, ReplaceRule_rewrite v f p = Done (p, log)) /\
  ReplaceRule_rewrite "XXXXXXXXX" "X" (chars "42") = Done (chars "XX", []).
Proof.
  destruct (ReplaceRule_rewrite_cases v f p) as (H1 & H2 & H3).
  split_and!; [exact H1 | exact H2 | exact H3 | reflexivity].
Qed.

(** ** Obfuscate *)

Example ObfuscateRule_rewrite_hello :
  forall char_signed,
    ObfuscateRule_rewrite char_signed (chars "Hello, World 42") = chars "UryybL@Jbeyq@TR".
Proof. by intros []. Qed.

(** A test that holds on [all_bytes] holds on every byte. *)
Lemma forall_bytes (f : ascii -> bool) :
  forallb f all_bytes = true -> forall b, f b = true.
Proof.
  intros H b. rewrite forallb_forall in H. apply H.
  rewrite <- (ascii_nat_embedding b). unfold all_bytes.
  apply in_map, in_seq. pose proof (nat_ascii_bounded b). lia.
Qed.

(** On the letters the code is ROT13, whatever the signedness of [char]. *)
Lemma obfuscate_byte_letter char_signed b :
  is_ascii_letter b = true ->
  obfuscate_byte char_signed b = rot13 b /\ is_ascii_letter (rot13 b) = true.
Proof.
  intros Hb.
  pose proof (forall_bytes
    (fun b => implb (is_ascii_letter b)
                (Ascii.eqb (obfuscate_byte char_signed b) (rot13 b)
                 && is_ascii_letter (rot13 b)))) as H.
  specialize (H ltac:(by destruct char_signed; vm_compute) b).
  cbv beta in H. rewrite Hb in H. simpl in H.
  apply andb_true_iff in H as [H1 H2]. by apply Ascii.eqb_eq in H1.
Qed.

Lemma rot13_involutive b : is_ascii_letter b = true -> rot13 (rot13 b) = b.
Proof.
  intros Hb.
  pose proof (forall_bytes
    (fun b => implb (is_ascii_letter b) (Ascii.eqb (rot13 (rot13 b)) b))) as H.
  specialize (H ltac:(by vm_compute) b).
  cbv beta in H. rewrite Hb in H. by apply Ascii.eqb_eq in H.
Qed.

(** On the other bytes the code agrees with [min (b + 32) 127] as long as
    [b + 32] stays below 128. *)
Lemma obfuscate_byte_low char_signed b :
  is_ascii_letter b = false -> (char_code b + 32 <= 127)%Z ->
  obfuscate_byte char_signed b = obfuscation_spec b.
Proof.
  intros Hb Hlow.
  pose proof (forall_bytes
    (fun b => implb (negb (is_ascii_letter b) && (char_code b + 32 <=? 127)%Z)
                (Ascii.eqb (obfuscate_byte char_signed b) (obfuscation_spec b)))) as H.
  specialize (H ltac:(by destruct char_signed; vm_compute) b).
  cbv beta in H. apply Z.leb_le in Hlow. rewrite Hb, Hlow in H.
  by apply Ascii.eqb_eq in H.
Qed.

(** C9: obfuscating a payload twice gives back every byte that is an
    ASCII letter. *)
Theorem ObfuscateRule_rewrite_twice_letters (char_signed : bool) (s : list ascii) :
  forall i c,
    s !! i = Some c -> is_ascii_letter c = true ->
    ObfuscateRule_rewrite char_signed (ObfuscateRule_rewrite char_signed s) !! i = Some c.
Proof.
  intros i c Hi Hc. unfold ObfuscateRule_rewrite.
  rewrite !list_lookup_fmap, Hi. simpl. f_equal.
  destruct (obfuscate_byte_letter char_signed c Hc) as [-> Hr].
  destruct (obfuscate_byte_letter char_signed (rot13 c) Hr) as [-> _].
  by apply rot13_involutive.
Qed.

Lemma ObfuscateRule_rewrite_twice_letters_witness :
  ObfuscateRule_rewrite true (ObfuscateRule_rewrite true (chars "a-Z")) !! 2 = Some "Z"%char.
Proof.
  apply (ObfuscateRule_rewrite_twice_letters true (chars "a-Z") 2 "Z"%char);
    reflexivity.
Defined.

(** C6: the byte 0x60 (the backquote, not a letter) where [char] is
    signed: [c + 32] is 128, the conversion to [char] makes it -128, the
    test [d > 127] is false, and the byte stored is 0x80 where
    [min (b + 32) 127] is 0x7f. Whatever the signedness, the byte 0xe0
    wraps around to 0x00. *)
Theorem maxscale_basic_obfuscation_not_saturating :
  ObfuscateRule_rewrite true (chars "`") = [ascii_of_nat 128] /\
  is_ascii_letter "`" = false /\
  obfuscation_spec "`" = ascii_of_nat 127 /\
  (forall char_signed,
     ObfuscateRule_rewrite char_signed [ascii_of_nat 224] = [ascii_of_nat 0]) /\
  obfuscation_spec (ascii_of_nat 224) = ascii_of_nat 127.
Proof.
  repeat split; try reflexivity. by intros [].
Qed.

(** ** std::find_if *)

Lemma find_if_le {A} (pred : A -> bool) (l : list A) : find_if pred l <= length l.
Proof. induction l as [|x l IH]; simpl; [lia | destruct (pred x); lia]. Qed.

Lemma find_if_found {A} (pred : A -> bool) (l : list A) :
  find_if pred l < length l ->
  exists x, l !! find_if pred l = Some x /\ pred x = true.
Proof.
  induction l as [|x l IH]; simpl; [lia |].
  destruct (pred x) eqn:Hx; [by exists x |].
  intros H. apply IH. lia.
Qed.

Lemma find_if_before {A} (pred : A -> bool) (l : list A) j y :
  j < find_if pred l -> l !! j = Some y -> pred y = false.
Proof.
  revert j. induction l as [|x l IH]; intros j; simpl; [lia |].
  destruct (pred x) eqn:Hx; [lia |].
  destruct j as [|j]; simpl.
  - by intros _ [= <-].
  - intros H. apply IH. lia.
Qed.

Lemma find_if_first {A} (pred : A -> bool) (l : list A) i x :
  l !! i = Some x -> pred x = true ->
  (forall j y, j < i -> l !! j = Some y -> pred y = false) ->
  find_if pred l = i.
Proof.
  revert i. induction l as [|z l IH]; intros i; [done |].
  destruct i as [|i]; simpl.
  - by intros [= ->] ->.
  - intros Hi Hx Hbefore.
    rewrite (Hbefore 0 z) by (done || lia).
    f_equal. apply IH; [done.. |].
    intros j y Hj Hy. apply (Hbefore (S j) y); [lia | done].
Qed.

Lemma find_if_end {A} (pred : A -> bool) (l : list A) :
  find_if pred l = length l <-> (forall x, x ∈ l -> pred x = false).
Proof.
  induction l as [|z l IH]; simpl.
  - split; [intros _ x Hx; by apply elem_of_nil in Hx | done].
  - destruct (pred z) eqn:Hz.
    + split; [done |]. intros H. specialize (H z (list_elem_of_here _ _)). congruence.
    + split.
      * intros [= Hl] x [->|Hx]%elem_of_cons; [done |]. by apply IH.
      * intros H. f_equal. apply IH. intros x Hx. apply H. by right.
Qed.

Lemma find_if_not_end {A} (pred : A -> bool) (l : list A) :
  find_if pred l <> length l <-> (exists x, x ∈ l /\ pred x = true).
Proof.
  split.
  - intros Hne. pose proof (find_if_le pred l).
    destruct (find_if_found pred l) as (x & Hx & Hp); [lia |].
    exists x. split; [|done]. by eapply list_elem_of_lookup_2.
  - intros (x & Hx & Hp) Hend. rewrite find_if_end in Hend.
    specialize (Hend x Hx). congruence.
Qed.

Section MaskingProperties.

Context {P : PCRE2} {U : MysqlUtils}.

(** ** Rule::matches *)

(** C4: a rule matches a column definition and a connection's
    [(user, host)] exactly when its column is the column's org_name, its
    table is empty or the column's org_table, its database is empty or
    the column's schema, some account of a non-empty applies_to list
    matches [(user, host)], and no account of a non-empty exempted list
    does. *)
Theorem Rule_matches_iff (r : Rule) (column_def : ColumnDef) (zUser zHost : string) :
  let b := Rule_base_of r in
  Rule_matches r column_def zUser zHost = true <->
  m_column b = org_name column_def /\
  (m_table b = "" \/ m_table b = org_table column_def) /\
  (m_database b = "" \/ m_database b = schema column_def) /\
  (m_applies_to b <> [] ->
   exists a, a ∈ m_applies_to b /\ Account_matches a zUser zHost = true) /\
  (m_exempted b <> [] ->
   forall a, a ∈ m_exempted b -> Account_matches a zUser zHost = false).
Proof.
  intros b. unfold Rule_matches, Rule_base_matches. fold b.
  set (matcher := fun sAccount => Account_matches sAccount zUser zHost).
  destruct (bool_decide (m_column b = org_name column_def)) eqn:Hc; simpl;
    [apply bool_decide_eq_true in Hc
    |apply bool_decide_eq_false in Hc; split; [done | tauto]].
  destruct (bool_decide (m_table b = "") ||
            bool_decide (m_table b = org_table column_def)) eqn:Ht; simpl.
  2: { apply orb_false_iff in Ht as [Ht1%bool_decide_eq_false Ht2%bool_decide_eq_false].
       split; [done | tauto]. }
  apply orb_true_iff in Ht.
  rewrite !bool_decide_eq_true in Ht.
  destruct (bool_decide (m_database b = "") ||
            bool_decide (m_database b = schema column_def)) eqn:Hd; simpl.
  2: { apply orb_false_iff in Hd as [Hd1%bool_decide_eq_false Hd2%bool_decide_eq_false].
       split; [done | tauto]. }
  apply orb_true_iff in Hd.
  rewrite !bool_decide_eq_true in Hd.
  assert (forall l : list Account, (length l =? 0)%nat = true <-> l = []) as Hnil.
  { intros l. rewrite Nat.eqb_eq. by destruct l. }
  assert (forall l : list Account,
            (find_if matcher l =? length l)%nat = true <->
            forall a, a ∈ l -> Account_matches a zUser zHost = false) as Hend.
  { intros l. rewrite Nat.eqb_eq. apply find_if_end. }
  assert (forall l : list Account,
            negb (find_if matcher l =? length l)%nat = true <->
            exists a, a ∈ l /\ Account_matches a zUser zHost = true) as Hfound.
  { intros l. rewrite negb_true_iff, Nat.eqb_neq. apply find_if_not_end. }
  destruct (length (m_applies_to b) =? 0)%nat eqn:Ha; simpl.
  - apply Hnil in Ha.
    destruct (length (m_exempted b) =? 0)%nat eqn:He; simpl.
    + apply Hnil in He. split; [|done]. intros _. repeat split; done.
    + assert (m_exempted b <> []) as Hne.
      { intros Hn%Hnil. congruence. }
      rewrite Hend. split.
      * intros H. repeat split; done.
      * intros (_ & _ & _ & _ & H). by apply H.
  - assert (m_applies_to b <> []) as Hna.
    { intros Hn%Hnil. congruence. }
    destruct (negb (find_if matcher (m_applies_to b) =? length (m_applies_to b))%nat)
      eqn:Hf; simpl.
    + apply Hfound in Hf.
      destruct (length (m_exempted b) =? 0)%nat eqn:He; simpl.
      * apply Hnil in He. split; [|done]. intros _. repeat split; done.
      * assert (m_exempted b <> []) as Hne.
        { intros Hn%Hnil. congruence. }
        rewrite Hend. split.
        -- intros H. repeat split; done.
        -- intros (_ & _ & _ & _ & H). by apply H.
    + split; [done |]. intros (_ & _ & _ & H & _).
      apply Hfound in H; [|done]. congruence.
Qed.

(** ** MaskingRules::get_rule_for *)

(** C10: [get_rule_for] returns the first rule of the rules array, in
    array order, that matches; it returns nothing exactly when no rule
    matches. *)
Theorem MaskingRules_get_rule_for_first (rules : MaskingRules) (column_def : ColumnDef)
        (zUser zHost : string) :
  (forall r,
     MaskingRules_get_rule_for rules column_def zUser zHost = Some r <->
     exists i,
       m_rules rules !! i = Some r /\
       Rule_matches r column_def zUser zHost = true /\
       forall j r', j < i -> m_rules rules !! j = Some r' ->
                    Rule_matches r' column_def zUser zHost = false) /\
  (MaskingRules_get_rule_for rules column_def zUser zHost = None <->
   forall r, r ∈ m_rules rules -> Rule_matches r column_def zUser zHost = false).
Proof.
  unfold MaskingRules_get_rule_for.
  set (matcher := fun sRule => Rule_matches sRule column_def zUser zHost).
  pose proof (find_if_le matcher (m_rules rules)) as Hle.
  destruct (find_if matcher (m_rules rules) =? length (m_rules rules))%nat eqn:He;
    simpl.
  - apply Nat.eqb_eq in He. split.
    + intros r. split; [done |]. intros (i & Hi & Hm & _).
      pose proof (proj1 (find_if_end matcher (m_rules rules)) He r
                        (list_elem_of_lookup_2 _ _ _ Hi)) as Hr.
      unfold matcher in Hr. congruence.
    + split; [|done]. intros _. exact (proj1 (find_if_end matcher (m_rules rules)) He).
  - apply Nat.eqb_neq in He.
    destruct (find_if_found matcher (m_rules rules)) as (x & Hx & Hp); [lia |].
    rewrite Hx. split.
    + intros r. split.
      * intros [= <-]. exists (find_if matcher (m_rules rules)).
        repeat split; [done.. |]. intros j r' Hj Hr'.
        by apply (find_if_before matcher (m_rules rules) j r').
      * intros (i & Hi & Hm & Hbefore).
        rewrite (find_if_first matcher (m_rules rules) i r) in Hx by done.
        congruence.
    + split; [done |]. intros Hnone.
      specialize (Hnone x (list_elem_of_lookup_2 _ _ _ Hx)).
      unfold matcher in Hp. congruence.
Qed.

End MaskingProperties.

(** ** Capture *)

Lemma c_str_length (s : list ascii) : length (c_str s) <= length s.
Proof.
  induction s as [|c s IH]; simpl; [lia |].
  destruct (Ascii.eqb c NUL); simpl; lia.
Qed.

(** The digit-run matcher reports its matches in range. *)
Lemma find_digit_run_range k l : forall i j,
  find_digit_run k l i = Some j -> i <= j /\ j + k <= i + length l.
Proof.
  induction l as [|c l IH]; intros i j; cbn [find_digit_run].
  - destruct (_ && _) eqn:Hk; [|done].
    intros [= <-]. apply andb_true_iff in Hk as [Hk%Nat.eqb_eq _].
    rewrite length_take in Hk. lia.
  - destruct (_ && _) eqn:Hk.
    + intros [= <-]. apply andb_true_iff in Hk as [Hk%Nat.eqb_eq _].
      rewrite length_take in Hk. lia.
    + intros Hj%IH. simpl. lia.
Qed.

Lemma digit_run_in_range : pcre2_match_in_range digit_run_pcre2.
Proof.
  intros k subject startoffset rv ov0 ov1. simpl. unfold digit_run_match.
  case_bool_decide as Hoff.
  - intros [= <- _ _]. unfold PCRE2_ERROR_BADOFFSET. lia.
  - destruct (find_digit_run k (drop startoffset subject) startoffset) as [i|] eqn:Hf.
    + intros [= <- <- <-] _. apply find_digit_run_range in Hf.
      rewrite length_drop in Hf. lia.
    + intros [= <- _ _]. unfold PCRE2_ERROR_NOMATCH. lia.
Qed.

(** Scenario F of the specification, with the log the code leaves. *)
Example CaptureRule_rewrite_card :
  CaptureRule_rewrite (P := digit_run_pcre2) 19 four_digits "*" (chars "card 1234 5678 end")
  = Done (chars "card **** **** end", [MXS_PCRE2_PRINT_ERROR PCRE2_ERROR_NOMATCH]).
Proof. reflexivity. Qed.

Section CaptureProperties.

Context {P : PCRE2}.
Hypothesis Hrange : pcre2_match_in_range P.

(** What one run of the loop condition and body does. *)
Lemma capture_step_cases (m_regexp : pcre2_code) (m_fill : string)
      (total_len : nat) (st : capture_state) :
  m_fill <> "" -> length (cs_s st) = total_len ->
  match capture_step m_regexp m_fill total_len st with
  | Continue st' =>
      cs_startoffset st < cs_startoffset st' /\
      cs_startoffset st' <= total_len /\
      length (cs_s st') = total_len /\
      exists ov0,
        cs_startoffset st <= ov0 /\ ov0 < cs_startoffset st' /\
        pcre2_match m_regexp (c_str (cs_s st)) (cs_startoffset st)
          = (cs_rv st', (ov0, cs_startoffset st')) /\
        cs_s st' = take ov0 (cs_s st)
                   ++ tile (chars m_fill) (cs_startoffset st' - ov0)
                   ++ drop (cs_startoffset st') (cs_s st)
  | Break st' =>
      cs_s st' = cs_s st /\ cs_startoffset st' = cs_startoffset st
  | Fault => False
  end.
Proof.
  intros Hfill Hlen. unfold capture_step.
  case_bool_decide as Hoff; [|done].
  cbn [pcre2_subject].
  destruct (pcre2_match m_regexp (c_str (cs_s st)) (cs_startoffset st))
    as [rv [ov0 ov1]] eqn:Hm.
  destruct (0 <=? rv)%Z eqn:Hrv; [|done].
  apply Z.leb_le in Hrv.
  destruct (Hrange _ _ _ _ _ _ Hm Hrv) as (H0 & H1 & H2).
  pose proof (c_str_length (cs_s st)) as Hc.
  case_bool_decide as Heq; [done |].
  rewrite bool_decide_eq_false_2 by lia.
  replace (ov0 + (ov1 - ov0)) with ov1 by lia.
  rewrite fill_buffer_spec by (auto using chars_nonempty; lia).
  cbn [cs_s cs_startoffset cs_rv].
  repeat split; [lia | lia | |].
  - rewrite !length_app, length_take, length_drop.
    unfold tile. rewrite tile_from_length. lia.
  - exists ov0. repeat split; (lia || done).
Qed.

Lemma capture_loop_terminates (m_regexp : pcre2_code) (m_fill : string)
      (total_len : nat) :
  m_fill <> "" ->
  forall fuel st,
    length (cs_s st) = total_len ->
    total_len - cs_startoffset st < fuel ->
    exists st',
      capture_loop fuel m_regexp m_fill total_len st = Done st' /\
      length (cs_s st') = total_len.
Proof.
  intros Hfill. induction fuel as [|fuel IH]; intros st Hlen Hfuel; [lia |].
  cbn [capture_loop].
  pose proof (capture_step_cases m_regexp m_fill total_len st Hfill Hlen) as Hstep.
  destruct (capture_step m_regexp m_fill total_len st) as [st'|st'|]; [| |done].
  - destruct Hstep as (Hadv & Hle & Hlen' & _). apply IH; [done | lia].
  - destruct Hstep as [Hs _]. exists st'. split; [done | congruence].
Qed.

(** X24: with a matcher that reports its matches in range, the capture
    loop terminates. A match of non-zero length is overwritten with the
    tiled fill and the loop goes round again with the search offset at
    the end of that match, strictly further on than it was; a match of
    length zero leaves the loop at once; no iteration touches memory
    outside the payload; and the rewrite returns once the fuel exceeds
    the length of the payload. *)
Theorem CaptureRule_rewrite_terminates (m_regexp : pcre2_code) (m_fill : string)
        (s : list ascii) :
  m_fill <> "" ->
  (forall st rv ov0 ov1,
     length (cs_s st) = length s ->
     cs_startoffset st < length s ->
     pcre2_match m_regexp (c_str (cs_s st)) (cs_startoffset st) = (rv, (ov0, ov1)) ->
     (0 <= rv)%Z -> ov0 <> ov1 ->
     cs_startoffset st < ov1 /\
     capture_step m_regexp m_fill (length s) st
     = Continue {| cs_s := take ov0 (cs_s st)
                           ++ tile (chars m_fill) (ov1 - ov0)
                           ++ drop ov1 (cs_s st);
                   cs_startoffset := ov1;
                   cs_rv := rv |}) /\
  (forall st st',
     length (cs_s st) = length s ->
     capture_step m_regexp m_fill (length s) st = Continue st' ->
     cs_startoffset st < cs_startoffset st' /\
     exists ov0,
       ov0 < cs_startoffset st' /\
       pcre2_match m_regexp (c_str (cs_s st)) (cs_startoffset st)
         = (cs_rv st', (ov0, cs_startoffset st')) /\
       cs_s st' = take ov0 (cs_s st)
                  ++ tile (chars m_fill) (cs_startoffset st' - ov0)
                  ++ drop (cs_startoffset st') (cs_s st)) /\
  (forall st rv ov,
     cs_startoffset st < length s ->
     pcre2_match m_regexp (c_str (cs_s st)) (cs_startoffset st) = (rv, (ov, ov)) ->
     (0 <= rv)%Z ->
     capture_step m_regexp m_fill (length s) st
     = Break {| cs_s := cs_s st; cs_startoffset := cs_startoffset st; cs_rv := rv |}) /\
  (forall st,
     length (cs_s st) = length s ->
     capture_step m_regexp m_fill (length s) st <> Fault) /\
  (forall fuel,
     length s < fuel ->
     exists s' log, CaptureRule_rewrite fuel m_regexp m_fill s = Done (s', log)).
Proof.
  intros Hfill. split; [|split; [|repeat split]].
  - intros st rv ov0 ov1 Hlen Hoff Hm Hrv Hne.
    destruct (Hrange _ _ _ _ _ _ Hm Hrv) as (H0 & H1 & H2).
    pose proof (c_str_length (cs_s st)) as Hc.
    split; [lia |]. unfold capture_step.
    rewrite bool_decide_eq_true_2 by done. cbn [pcre2_subject]. rewrite Hm.
    rewrite (proj2 (Z.leb_le 0 rv)) by done.
    rewrite (bool_decide_eq_false_2 (ov1 = ov0)) by congruence.
    rewrite bool_decide_eq_false_2 by lia.
    replace (ov0 + (ov1 - ov0)) with ov1 by lia.
    by rewrite fill_buffer_spec by (auto using chars_nonempty; lia).
  - intros st st' Hlen Hst.
    pose proof (capture_step_cases m_regexp m_fill (length s) st Hfill Hlen) as Hstep.
    rewrite Hst in Hstep. destruct Hstep as (? & _ & _ & ov0 & ? & ? & ? & ?).
    split; [done |]. by exists ov0.
  - intros st rv ov Hoff Hm Hrv. unfold capture_step.
    rewrite bool_decide_eq_true_2 by done. cbn [pcre2_subject]. rewrite Hm.
    apply Z.leb_le in Hrv. rewrite Hrv.
    by rewrite bool_decide_eq_true_2.
  - intros st Hlen Hf.
    pose proof (capture_step_cases m_regexp m_fill (length s) st Hfill Hlen) as Hstep.
    by rewrite Hf in Hstep.
  - intros fuel Hfuel. unfold CaptureRule_rewrite.
    destruct (pcre2_match_data_create_from_pattern m_regexp); [|by eexists _, _].
    destruct (capture_loop_terminates m_regexp m_fill (length s) Hfill fuel
                {| cs_s := s; cs_startoffset := 0; cs_rv := 0 |})
      as (st' & -> & _); [done | simpl; lia |].
    by eexists _, _.
Qed.

Lemma CaptureRule_rewrite_length (fuel : nat) (m_regexp : pcre2_code)
      (m_fill : string) (s : list ascii) :
  m_fill <> "" -> length s < fuel ->
  exists s' log,
    CaptureRule_rewrite fuel m_regexp m_fill s = Done (s', log) /\
    length s' = length s.
Proof.
  intros Hfill Hfuel. unfold CaptureRule_rewrite.
  destruct (pcre2_match_data_create_from_pattern m_regexp); [|by eexists _, _].
  destruct (capture_loop_terminates m_regexp m_fill (length s) Hfill fuel
              {| cs_s := s; cs_startoffset := 0; cs_rv := 0 |})
    as (st' & -> & Hlen); [done | simpl; lia |].
  by eexists _, _.
Qed.

Lemma ReplaceRule_rewrite_length (m_value m_fill : string) (s : list ascii) :
  exists s' log,
    ReplaceRule_rewrite m_value m_fill s = Done (s', log) /\ length s' = length s.
Proof.
  destruct (ReplaceRule_rewrite_cases m_value m_fill s) as (Heq & Hfill & Hnone).
  destruct (decide (String.length m_value = length s)) as [Hl|Hl].
  - destruct (Heq Hl) as [log ->]. eexists _, _. split; [done |].
    by rewrite chars_length.
  - destruct (decide (m_fill = "")) as [Hf|Hf].
    + destruct (Hnone Hl Hf) as [log ->]. by eexists _, _.
    + rewrite (Hfill Hl Hf). eexists _, _. split; [done |].
      unfold tile. by rewrite tile_from_length.
Qed.

(** X23: with a matcher that reports its matches in range, each of the
    three rewrites returns a payload of the length it was given, for
    every rule the loader can build and every payload; and [fill_buffer]
    on a range of the payload changes that range alone, to the tiled
    fill. *)
Theorem Rule_rewrite_preserves_length (char_signed : bool) (fuel : nat)
        (r : Rule) (s : list ascii) :
  Rule_wf r -> length s < fuel ->
  (exists s' log,
     Rule_rewrite char_signed fuel r s = Done (s', log) /\ length s' = length s) /\
  (forall fill o_first o_last,
     fill <> [] -> o_first <= o_last -> o_last <= length s ->
     exists s',
       fill_buffer fill s o_first o_last = Some s' /\
       length s' = length s /\
       s' = take o_first s ++ tile fill (o_last - o_first) ++ drop o_last s).
Proof.
  intros Hwf Hfuel. split.
  - destruct r as [b v f | b | b code f]; cbn [Rule_rewrite].
    + apply ReplaceRule_rewrite_length.
    + eexists _, _. split; [done |]. unfold ObfuscateRule_rewrite.
      by rewrite length_fmap.
    + by apply CaptureRule_rewrite_length.
  - intros fill o_first o_last Hfill Ho Hl.
    pose proof (fill_buffer_spec fill s o_first o_last Hfill Ho Hl) as Hs.
    eexists. split; [exact Hs |]. split; [|done].
    by apply fill_buffer_length in Hs.
Qed.

End CaptureProperties.

Lemma CaptureRule_rewrite_terminates_witness :
  exists s' log,
    CaptureRule_rewrite (P := digit_run_pcre2) 19 four_digits "*" (chars "card 1234 5678 end")
    = Done (s', log).
Proof.
  destruct (CaptureRule_rewrite_terminates (P := digit_run_pcre2) digit_run_in_range
              four_digits "*" (chars "card 1234 5678 end")) as (_ & _ & _ & _ & H).
  - discriminate.
  - apply (H 19). vm_compute. lia.
Defined.

Lemma Rule_rewrite_preserves_length_witness :
  exists s' log,
    Rule_rewrite (P := digit_run_pcre2) true 19
      (CaptureRule {| m_column := "card"; m_table := ""; m_database := "";
                      m_applies_to := []; m_exempted := [] |} four_digits "*")
      (chars "card 1234 5678 end") = Done (s', log) /\
    length s' = length (chars "card 1234 5678 end").
Proof.
  apply (Rule_rewrite_preserves_length (P := digit_run_pcre2) digit_run_in_range).
  - simpl. discriminate.
  - vm_compute. lia.
Defined.

(** C7: the test after the loop is true for every negative return code,
    that of an ordinary no-match included: the rewrite of Scenario F
    ends with PCRE2_ERROR_NOMATCH and logs it, where the test that leaves
    out no-match and partial match logs nothing. *)
Theorem CaptureRule_rewrite_logs_nomatch :
  CaptureRule_rewrite (P := digit_run_pcre2) 19 four_digits "*" (chars "card 1234 5678 end")
  = Done (chars "card **** **** end", [MXS_PCRE2_PRINT_ERROR PCRE2_ERROR_NOMATCH]) /\
  capture_error_excluding_nomatch_partial PCRE2_ERROR_NOMATCH = false /\
  (forall rv, capture_logs_error rv = (rv <? 0)%Z).
Proof.
  repeat split. intros rv. unfold capture_logs_error.
  change (negb (PCRE2_ERROR_PARTIAL =? 0)%Z) with true.
  by rewrite orb_true_r, andb_true_r.
Qed.

(** ** The loader *)

Section LoaderProperties.

Context {P : PCRE2} {U : MysqlUtils}.



(** With both keys present the two vectors hold the accounts of the two
    arrays. *)
Lemma rule_run_common_checks_both (pRule : json_t) (a e : list json_t) :
  json_object_get pRule KEY_APPLIES_TO = Some (JsonArray a) ->
  json_object_get pRule KEY_EXEMPTED = Some (JsonArray e) ->
  rule_run_common_checks pRule =
  match get_accounts a with
  | Some applies_to =>
      match get_accounts e with
      | Some exempted => Some (applies_to, exempted)
      | None => None
      end
  | None => None
  end.
Proof. intros Ha He. unfold rule_run_common_checks. by rewrite Ha, He. Qed.

(** With one of the two keys absent no account is read at all. *)
Lemma rule_run_common_checks_single (pRule : json_t) :
  json_object_get pRule KEY_APPLIES_TO = None \/
  json_object_get pRule KEY_EXEMPTED = None ->
  rule_run_common_checks pRule = None \/
  rule_run_common_checks pRule = Some ([], []).
Proof.
  intros H. unfold rule_run_common_checks.
  destruct (negb (validate_user_rules _ _)); [by left |].
  destruct H as [-> | ->]; [by right |].
  destruct (json_object_get pRule KEY_APPLIES_TO); by right.
Qed.

(** C5: a rule that lists an account under applies_to and has no exempted
    key is accepted, and the rule built from it has an empty applies_to
    list: it matches the column for a user the document does not
    name. *)
Theorem MaskingRules_create_from_drops_applies_to :
  MaskingRules_create_from rules_applies_to_only =
  Some {| m_pRoot := rules_applies_to_only_stored;
          m_rules :=
            [ReplaceRule {| m_column := "ssn"; m_table := ""; m_database := "";
                            m_applies_to := []; m_exempted := [] |}
                         "XXXXXXXXX" "X"] |} /\
  (forall rules,
     MaskingRules_create_from rules_applies_to_only = Some rules ->
     exists r,
       MaskingRules_get_rule_for rules ssn_column "mallory" "elsewhere" = Some r /\
       m_applies_to (Rule_base_of r) = []).
Proof.
  split; [reflexivity |].
  intros rules [= <-]. by eexists.
Qed.

End LoaderProperties.

(** ** The router *)

Module RWSplitProperties.

Import RWSplit.

Lemma positions_nonempty {A} (f : A -> bool) (l : list A) (x : A) :
  x ∈ l -> f x = true -> positions f l <> [].
Proof.
  intros [i Hi]%list_elem_of_lookup_1 Hf. unfold positions.
  assert ((i, x) ∈ filter (fun ib : nat * A => f ib.2 = true)
                     (imap (fun i b => (i, b)) l)) as Hin.
  { apply list_elem_of_filter. split; [done |].
    apply list_elem_of_lookup_2 with i. by rewrite list_lookup_imap, Hi. }
  intros Hnil. apply (f_equal length) in Hnil. rewrite length_fmap in Hnil.
  destruct (filter _ _); [by apply elem_of_nil in Hin | done].
Qed.

Example route_query_bug694_select :
  rr_error (route_query bug694_session bug694_select) = Some CLASSIFICATION_REJECT.
Proof. reflexivity. Qed.

Example route_query_bug694_use :
  rr_sent (route_query (rr_session (route_query bug694_session bug694_select)) bug694_use)
  = [(0, bug694_use); (1, bug694_use)].
Proof. reflexivity. Qed.

(** C3: with use_sql_variables_in=all a COM_QUERY SELECT that assigns to
    a user variable is written to at most one backend (to none); when no
    reply is outstanding it is answered with a synthesized ERR packet,
    the error is CLASSIFICATION_REJECT, and the session is left as it
    was, open; a session command such as USE that follows is broadcast
    without error to the backends that are ready. *)
Theorem route_query_rejects_user_variable_select (ses : ROUTER_CLIENT_SES) (p : packet) :
  use_sql_variables_in (rses_config ses) = TYPE_ALL ->
  pkt_command p = COM_QUERY ->
  pkt_kind p = STMT_SELECT ->
  pkt_modifies_user_variable p = true ->
  length (rr_sent (route_query ses p)) <= 1 /\
  ((expected_responses ses <= 0)%Z ->
   rr_error (route_query ses p) = Some CLASSIFICATION_REJECT /\
   rr_sent (route_query ses p) = [] /\
   rr_client (route_query ses p) = [ERR_PACKET reject_message] /\
   length (rr_log (route_query ses p)) = 1 /\
   rr_session (route_query ses p) = ses /\
   (rses_closed ses = false -> rses_closed (rr_session (route_query ses p)) = false) /\
   (forall q b,
      pkt_command q = COM_QUERY -> pkt_kind q = STMT_SESSION ->
      b ∈ backends ses -> broadcast_recipient b = true ->
      let r := route_query (rr_session (route_query ses p)) q in
      rr_error r = None /\ rr_client r = [] /\
      rr_sent r = (fun i => (i, q)) <$> positions broadcast_recipient (backends ses) /\
      rr_sent r <> [] /\
      rses_closed (rr_session r) = rses_closed ses)).
Proof.
  intros Hall Hcmd Hkind Hvar.
  assert (classify (rses_config ses) (temp_tables ses) p = None) as Hreject.
  { unfold classify. by rewrite Hcmd, Hkind, Hvar, Hall. }
  split.
  - unfold route_query. destruct (0 <? expected_responses ses)%Z; [simpl; lia |].
    rewrite Hreject. simpl. lia.
  - intros Hidle.
    assert ((0 <? expected_responses ses)%Z = false) as Hq by (apply Z.ltb_ge; lia).
    assert (route_query ses p =
            {| rr_session := ses; rr_sent := [];
               rr_client := [ERR_PACKET reject_message];
               rr_error := Some CLASSIFICATION_REJECT;
               rr_log := [reject_message] |}) as ->.
    { unfold route_query. by rewrite Hq, Hreject. }
    cbn [rr_error rr_sent rr_client rr_log rr_session].
    split_and!; try done.
    intros q b Hqc Hqk Hb Hrec. cbv zeta.
    unfold route_query. rewrite Hq.
    assert (classify (rses_config ses) (temp_tables ses) q = Some TARGET_ALL) as ->.
    { unfold classify. by rewrite Hqc, Hqk. }
    change (TARGET_IS_ALL TARGET_ALL) with true. cbv iota.
    pose proof (positions_nonempty broadcast_recipient (backends ses) b Hb Hrec) as Hne.
    destruct (positions broadcast_recipient (backends ses)) as [|i rest] eqn:Hpos;
      [done |].
    cbn [rr_error rr_sent rr_client rr_session with_dispatch rses_closed].
    split_and!; done.
Qed.

Lemma route_query_rejects_user_variable_select_witness :
  length (rr_sent (route_query bug694_session bug694_select)) <= 1 /\
  rr_error (route_query bug694_session bug694_select) = Some CLASSIFICATION_REJECT /\
  rses_closed (rr_session (route_query bug694_session bug694_select)) = false /\
  rr_error (route_query (rr_session (route_query bug694_session bug694_select))
                        bug694_use) = None.
Proof.
  destruct (route_query_rejects_user_variable_select bug694_session bug694_select)
    as [Hone Hidle]; [reflexivity.. |].
  destruct Hidle as (Herr & _ & _ & _ & _ & Hopen & Huse); [simpl; lia |].
  split; [exact Hone |]. split; [exact Herr |].
  split; [apply Hopen; reflexivity |].
  apply (Huse bug694_use (bug694_backend "server1" BE_MASTER));
    [reflexivity | reflexivity | | reflexivity].
  apply list_elem_of_here.
Defined.

End RWSplitProperties.

(** * Further properties of the masking engine *)

(** ** Replace: what the rewritten payload depends on *)

(** X1: with a non-empty fill the payload a Replace rule returns depends
    on the length of the payload it is given and on nothing else of it:
    two payloads of one length are rewritten to the same bytes. *)
Theorem ReplaceRule_rewrite_depends_on_length_only (v f : string) (p1 p2 : list ascii) :
  f <> "" -> length p1 = length p2 ->
  ReplaceRule_rewrite v f p1 = ReplaceRule_rewrite v f p2.
Proof.
  intros Hf Hlen.
  destruct (ReplaceRule_rewrite_cases v f p1) as (Heq1 & Hfill1 & _).
  destruct (ReplaceRule_rewrite_cases v f p2) as (Heq2 & Hfill2 & _).
  destruct (decide (String.length v = length p1)) as [Hl|Hl].
  - destruct (decide (v = "")) as [->|Hv].
    + destruct p1; [|done]. destruct p2; [|done]. done.
    + unfold ReplaceRule_rewrite.
      rewrite (bool_decide_eq_false_2 (v = "")) by done. cbn [negb].
      rewrite (bool_decide_eq_true_2 (String.length v = length p1)) by done.
      rewrite (bool_decide_eq_true_2 (String.length v = length p2)) by congruence.
      rewrite (std_copy_all _ p1), (std_copy_all _ p2)
        by (rewrite chars_length; congruence).
      done.
  - rewrite Hfill1, Hfill2 by congruence. by rewrite Hlen.
Qed.

Lemma ReplaceRule_rewrite_depends_on_length_only_witness :
  ReplaceRule_rewrite "XXXXXXXXX" "#-" (chars "alice") =
  ReplaceRule_rewrite "XXXXXXXXX" "#-" (chars "bobby").
Proof.
  apply ReplaceRule_rewrite_depends_on_length_only; [discriminate | reflexivity].
Defined.

(** ** Capture: what the loop can and cannot change *)

Lemma c_str_nul (s : list ascii) :
  length (c_str s) < length s -> s !! length (c_str s) = Some NUL.
Proof.
  induction s as [|c s IH]; simpl; [lia |].
  destruct (Ascii.eqb c NUL) eqn:Hc; simpl.
  - intros _. by apply Ascii.eqb_eq in Hc as ->.
  - intros H. apply IH. lia.
Qed.

Lemma c_str_le_nul (s : list ascii) : forall n,
  s !! n = Some NUL -> length (c_str s) <= n.
Proof.
  induction s as [|c s IH]; intros n; [done |].
  destruct n as [|n]; simpl.
  - intros [= ->]. rewrite (proj2 (Ascii.eqb_eq NUL NUL)) by done. simpl. lia.
  - intros Hn. destruct (Ascii.eqb c NUL); simpl; [lia |].
    apply IH in Hn. lia.
Qed.

Lemma tile_elem_of (fill : list ascii) (n : nat) (c : ascii) :
  fill <> [] -> c ∈ tile fill n -> c ∈ fill.
Proof.
  intros Hfill. unfold tile, tile_from.
  intros (k & -> & _)%list_elem_of_fmap.
  assert (k mod length fill < length fill) as Hlt.
  { apply Nat.mod_upper_bound. by destruct fill. }
  destruct (lookup_lt_is_Some_2 fill _ Hlt) as [x Hx].
  rewrite Nat.add_0_l, (nth_lookup_Some _ _ _ _ Hx).
  by eapply list_elem_of_lookup_2.
Qed.

Section CaptureLoop.

Context {P : PCRE2}.
Hypothesis Hrange : pcre2_match_in_range P.

(** An iteration that goes round again has overwritten one match. *)
Lemma capture_step_continue (m_regexp : pcre2_code) (m_fill : string)
      (total_len : nat) (st st' : capture_state) :
  m_fill <> "" -> length (cs_s st) = total_len ->
  capture_step m_regexp m_fill total_len st = Continue st' ->
  exists ov0 ov1,
    ov0 < ov1 /\ ov1 <= length (c_str (cs_s st)) /\
    length (cs_s st') = total_len /\
    cs_s st' = take ov0 (cs_s st) ++ tile (chars m_fill) (ov1 - ov0)
               ++ drop ov1 (cs_s st).
Proof.
  intros Hfill Hlen. unfold capture_step.
  case_bool_decide as Hoff; [|done].
  cbn [pcre2_subject].
  destruct (pcre2_match m_regexp (c_str (cs_s st)) (cs_startoffset st))
    as [rv [ov0 ov1]] eqn:Hm.
  destruct (0 <=? rv)%Z eqn:Hrv; [|done].
  apply Z.leb_le in Hrv.
  destruct (Hrange _ _ _ _ _ _ Hm Hrv) as (H0 & H1 & H2).
  pose proof (c_str_length (cs_s st)) as Hc.
  case_bool_decide as Heq; [done |].
  rewrite bool_decide_eq_false_2 by lia.
  replace (ov0 + (ov1 - ov0)) with ov1 by lia.
  rewrite fill_buffer_spec by (auto using chars_nonempty; lia).
  intros [= <-]. cbn [cs_s]. exists ov0, ov1.
  split_and!; [lia | lia | | done].
  rewrite !length_app, length_take, length_drop.
  unfold tile. rewrite tile_from_length. lia.
Qed.

(** A property of the payload that every overwritten match keeps holds
    of the payload the loop ends with. *)
Lemma capture_loop_preserves (Q : list ascii -> Prop) (m_regexp : pcre2_code)
      (m_fill : string) (total_len : nat) :
  m_fill <> "" ->
  (forall st st',
     length (cs_s st) = total_len -> Q (cs_s st) ->
     capture_step m_regexp m_fill total_len st = Continue st' -> Q (cs_s st')) ->
  forall fuel st st',
    length (cs_s st) = total_len -> Q (cs_s st) ->
    capture_loop fuel m_regexp m_fill total_len st = Done st' ->
    Q (cs_s st').
Proof.
  intros Hfill Hstep. induction fuel as [|fuel IH]; intros st st' Hlen HQ; [done |].
  cbn [capture_loop].
  pose proof (capture_step_cases Hrange m_regexp m_fill total_len st Hfill Hlen) as Hc.
  destruct (capture_step m_regexp m_fill total_len st) as [st1|st1|] eqn:Hs; [| |done].
  - destruct Hc as (_ & _ & Hlen1 & _). apply IH; [done |].
    exact (Hstep st st1 Hlen HQ Hs).
  - destruct Hc as [Hsame _]. intros [= <-]. by rewrite Hsame.
Qed.

(** X2: a Capture rewrite writes nothing but bytes of the fill: every
    byte of the payload it returns is the byte the payload had at that
    position or a byte of the fill. *)
Theorem CaptureRule_rewrite_bytes_original_or_fill (fuel : nat)
        (m_regexp : pcre2_code) (m_fill : string) (s s' : list ascii)
        (log : list log_event) :
  m_fill <> "" ->
  CaptureRule_rewrite fuel m_regexp m_fill s = Done (s', log) ->
  forall i c, s' !! i = Some c -> s !! i = Some c \/ c ∈ chars m_fill.
Proof.
  intros Hfill. unfold CaptureRule_rewrite.
  destruct (pcre2_match_data_create_from_pattern m_regexp);
    [|intros [= <- _] i c Hi; by left].
  destruct (capture_loop fuel m_regexp m_fill (length s)
              {| cs_s := s; cs_startoffset := 0; cs_rv := 0 |}) as [st| |] eqn:Hloop;
    [|done..].
  intros [= <- _].
  refine (capture_loop_preserves
            (fun q => forall i c, q !! i = Some c -> s !! i = Some c \/ c ∈ chars m_fill)
            m_regexp m_fill (length s) Hfill _ fuel
            {| cs_s := s; cs_startoffset := 0; cs_rv := 0 |} st eq_refl _ Hloop);
    [|by left].
  intros st0 st1 Hlen HQ Hst i c.
  destruct (capture_step_continue m_regexp m_fill (length s) st0 st1 Hfill Hlen Hst)
    as (ov0 & ov1 & Hlt & Hle & _ & ->).
  pose proof (c_str_length (cs_s st0)) as Hc.
  intros [Hi | [Hlen0 [Hi | [Hlen1 Hi]]%lookup_app_Some]]%lookup_app_Some.
  - apply (HQ i c). apply lookup_take_Some in Hi. tauto.
  - right. apply (tile_elem_of _ (ov1 - ov0)); [by apply chars_nonempty |].
    by eapply list_elem_of_lookup_2.
  - rewrite lookup_drop in Hi. unfold tile in Hi, Hlen1.
    rewrite tile_from_length, length_take in Hi, Hlen1.
    rewrite length_take in Hlen0.
    replace (ov1 + (i - ov0 `min` length (cs_s st0) - (ov1 - ov0))) with i in Hi by lia.
    by apply HQ.
Qed.

(** X3: the subject handed to [pcre2_match] ends at the first NUL byte of
    the payload, so a Capture rewrite leaves that byte and every byte
    after it as they were. *)
Theorem CaptureRule_rewrite_keeps_bytes_from_first_nul (fuel : nat)
        (m_regexp : pcre2_code) (m_fill : string) (s s' : list ascii)
        (log : list log_event) :
  m_fill <> "" ->
  CaptureRule_rewrite fuel m_regexp m_fill s = Done (s', log) ->
  drop (length (c_str s)) s' = drop (length (c_str s)) s.
Proof.
  intros Hfill. unfold CaptureRule_rewrite.
  destruct (pcre2_match_data_create_from_pattern m_regexp); [|by intros [= <- _]].
  destruct (capture_loop fuel m_regexp m_fill (length s)
              {| cs_s := s; cs_startoffset := 0; cs_rv := 0 |}) as [st| |] eqn:Hloop;
    [|done..].
  intros [= <- _]. set (n := length (c_str s)).
  refine (proj1 (capture_loop_preserves
            (fun q => drop n q = drop n s /\ length (c_str q) <= n)
            m_regexp m_fill (length s) Hfill _ fuel
            {| cs_s := s; cs_startoffset := 0; cs_rv := 0 |} st eq_refl _ Hloop));
    [|by split].
  intros st0 st1 Hlen [Hdrop Hn] Hst.
  destruct (capture_step_continue m_regexp m_fill (length s) st0 st1 Hfill Hlen Hst)
    as (ov0 & ov1 & Hlt & Hle & Hlen1 & Hs1).
  pose proof (c_str_length (cs_s st0)) as Hc.
  assert (drop n (cs_s st1) = drop n s) as Hdrop1.
  { rewrite Hs1, app_assoc.
    rewrite drop_app_ge;
      rewrite length_app, length_take; unfold tile; rewrite tile_from_length; [|lia].
    rewrite drop_drop, <- Hdrop. f_equal. lia. }
  split; [done |].
  destruct (decide (n < length s)) as [Hlt_n | Hge].
  - apply c_str_le_nul.
    pose proof (c_str_nul s Hlt_n) as Hnul. fold n in Hnul.
    rewrite <- (Nat.add_0_r n), <- lookup_drop, Hdrop1, lookup_drop, Nat.add_0_r.
    done.
  - pose proof (c_str_length (cs_s st1)). lia.
Qed.

(** X4: how a Capture rewrite ends without touching the payload. When the
    match data cannot be allocated the payload is returned as it was,
    with one error in the log; an empty payload is returned at once with
    an empty log; and when the first match attempt fails the payload is
    returned as it was and the return code is logged. *)
Theorem CaptureRule_rewrite_untouched (fuel : nat) (m_regexp : pcre2_code)
        (m_fill : string) (s : list ascii) :
  (pcre2_match_data_create_from_pattern m_regexp = false ->
   exists msg, CaptureRule_rewrite fuel m_regexp m_fill s = Done (s, [MXS_ERROR msg])) /\
  (pcre2_match_data_create_from_pattern m_regexp = true -> 0 < fuel ->
   CaptureRule_rewrite fuel m_regexp m_fill [] = Done ([], [])) /\
  (pcre2_match_data_create_from_pattern m_regexp = true -> 0 < fuel ->
   s <> [] ->
   forall rv ov,
     pcre2_match m_regexp (c_str s) 0 = (rv, ov) -> (rv < 0)%Z ->
     CaptureRule_rewrite fuel m_regexp m_fill s = Done (s, [MXS_PCRE2_PRINT_ERROR rv])).
Proof.
  unfold CaptureRule_rewrite. split_and!.
  - intros ->. by eexists.
  - intros -> Hfuel. destruct fuel; [lia | done].
  - intros -> Hfuel Hs rv [ov0 ov1] Hm Hrv. destruct fuel as [|fuel]; [lia |].
    cbn [capture_loop]. unfold capture_step. cbn [cs_startoffset cs_s pcre2_subject].
    rewrite bool_decide_eq_true_2 by (destruct s; [done | simpl; lia]).
    rewrite Hm. rewrite (proj2 (Z.leb_gt 0 rv)) by done. cbn [cs_s cs_rv].
    unfold capture_logs_error. rewrite (proj2 (Z.ltb_lt rv 0)) by done.
    change (negb (PCRE2_ERROR_PARTIAL =? 0)%Z) with true.
    by rewrite orb_true_r.
Qed.

End CaptureLoop.

Lemma CaptureRule_rewrite_bytes_original_or_fill_witness :
  chars "card 1234 5678 end" !! 6 = Some "*"%char \/ "*"%char ∈ chars "*".
Proof.
  apply (CaptureRule_rewrite_bytes_original_or_fill (P := digit_run_pcre2)
           digit_run_in_range 19 four_digits "*" (chars "card 1234 5678 end")
           (chars "card **** **** end") [MXS_PCRE2_PRINT_ERROR PCRE2_ERROR_NOMATCH]);
    [discriminate | reflexivity | reflexivity].
Defined.

Lemma CaptureRule_rewrite_keeps_bytes_from_first_nul_witness :
  drop (length (c_str payload_with_nul)) (chars "****" ++ [NUL] ++ chars "5678")
  = drop (length (c_str payload_with_nul)) payload_with_nul.
Proof.
  apply (CaptureRule_rewrite_keeps_bytes_from_first_nul (P := digit_run_pcre2)
           digit_run_in_range 10 four_digits "*" payload_with_nul
           (chars "****" ++ [NUL] ++ chars "5678")
           [MXS_PCRE2_PRINT_ERROR PCRE2_ERROR_NOMATCH]);
    [discriminate | reflexivity].
Defined.

(** ** Obfuscate: what happens to each kind of byte *)

(** X5: a byte below 0x60 that is not a letter is moved up by 32,
    whatever the signedness of [char]. *)
Theorem obfuscate_byte_shifts_low_bytes (char_signed : bool) (b : ascii) :
  is_ascii_letter b = false -> (char_code b <= 95)%Z ->
  char_code (obfuscate_byte char_signed b) = (char_code b + 32)%Z.
Proof.
  intros Hb Hlow.
  pose proof (forall_bytes
    (fun b => implb (negb (is_ascii_letter b) && (char_code b <=? 95)%Z)
                (char_code (obfuscate_byte char_signed b) =? char_code b + 32)%Z)) as H.
  specialize (H ltac:(by destruct char_signed; vm_compute) b).
  cbv beta in H. apply Z.leb_le in Hlow. rewrite Hb, Hlow in H.
  by apply Z.eqb_eq in H.
Qed.

Lemma obfuscate_byte_shifts_low_bytes_witness :
  char_code (obfuscate_byte true " "%char) = (char_code " "%char + 32)%Z.
Proof.
  apply (obfuscate_byte_shifts_low_bytes true " "%char); [reflexivity | vm_compute; discriminate].
Defined.

(** X6: a letter is moved 13 places round its own alphabet: the
    obfuscated byte is a letter of the same case, whatever the
    signedness of [char]. *)
Theorem obfuscate_byte_rotates_letters (char_signed : bool) (b : ascii) :
  is_ascii_letter b = true ->
  let base := if (char_code b <? char_code "a")%Z
              then char_code "A" else char_code "a" in
  char_code (obfuscate_byte char_signed b)
  = (base + (char_code b - base + 13) mod 26)%Z.
Proof.
  intros Hb.
  pose proof (forall_bytes
    (fun b => implb (is_ascii_letter b)
                (char_code (obfuscate_byte char_signed b) =?
                 (if (char_code b <? char_code "a")%Z
                  then char_code "A" else char_code "a")
                 + (char_code b
                    - (if (char_code b <? char_code "a")%Z
                       then char_code "A" else char_code "a") + 13) mod 26)%Z)) as H.
  specialize (H ltac:(by destruct char_signed; vm_compute) b).
  cbv beta in H. rewrite Hb in H. by apply Z.eqb_eq in H.
Qed.

Lemma obfuscate_byte_rotates_letters_witness :
  char_code (obfuscate_byte false "Q"%char) = (65 + (81 - 65 + 13) mod 26)%Z.
Proof.
  apply (obfuscate_byte_rotates_letters false "Q"%char). reflexivity.
Defined.

(** X7: the obfuscation loses information: the exclamation mark and the
    letter N are both turned into the letter A, so no function gives the
    payload back from its obfuscated form. *)
Theorem obfuscate_byte_not_injective (char_signed : bool) :
  obfuscate_byte char_signed "!" = obfuscate_byte char_signed "N" /\
  ~ (exists undo : list ascii -> list ascii,
       forall s, undo (ObfuscateRule_rewrite char_signed s) = s).
Proof.
  assert (obfuscate_byte char_signed "!" = obfuscate_byte char_signed "N") as Heq
    by (by destruct char_signed).
  split; [done |]. intros [undo Hundo].
  pose proof (Hundo ["!"%char]) as H1. pose proof (Hundo ["N"%char]) as H2.
  unfold ObfuscateRule_rewrite in H1, H2. simpl in H1, H2.
  rewrite Heq in H1. congruence.
Qed.

(** ** Accounts *)

Section AccountProperties.

Context {P : PCRE2} {U : MysqlUtils}.

(** X8: an account with a wildcard host does not look at the host of the
    connection: [pcre2_match] is called with subject length 0, so the
    answer is the same for every host. *)
Theorem AccountRegexp_matches_ignores_host (m_user : string) (m_pCode : pcre2_code)
        (zUser zHost1 zHost2 : string) :
  AccountRegexp_matches m_user m_pCode zUser zHost1
  = AccountRegexp_matches m_user m_pCode zUser zHost2.
Proof.
  unfold AccountRegexp_matches, pcre2_subject. by rewrite !take_0.
Qed.

Lemma split_at_sign_no_at (account : string) :
  "@"%char ∉ chars account -> split_at_sign account = (account, None).
Proof.
  induction account as [|c rest IH]; [done |].
  intros Hnot. cbn [split_at_sign].
  destruct (Ascii.eqb c "@") eqn:Hc.
  - apply Ascii.eqb_eq in Hc as ->. exfalso. apply Hnot. simpl. apply list_elem_of_here.
  - rewrite IH; [done |]. intros Hin. apply Hnot. simpl. by apply list_elem_of_further.
Qed.

(** X9: an account specifier is cut at its first '@': the user part has
    no '@' in it, and user part, '@' and host part put together again
    are the specifier; without an '@' the specifier is the user part and
    there is no host part. *)
Theorem split_at_sign_spec (account : string) :
  ("@"%char ∉ chars (split_at_sign account).1) /\
  account = String.append (split_at_sign account).1
              match (split_at_sign account).2 with
              | Some host => String "@" host
              | None => ""
              end.
Proof.
  induction account as [|c rest [IHnot IHeq]]; cbn [split_at_sign].
  - split; [apply not_elem_of_nil | done].
  - destruct (Ascii.eqb c "@") eqn:Hc.
    + apply Ascii.eqb_eq in Hc as ->. split; [apply not_elem_of_nil | done].
    + destruct (split_at_sign rest) as [u h] eqn:Hs. cbn [fst snd] in *. split.
      * simpl. intros [<-|Hin]%elem_of_cons; [|done].
        discriminate Hc.
      * rewrite IHeq at 1. reflexivity.
Qed.

(** X10: a specifier without '@' gives an account with an empty host,
    which matches its user on every host. *)
Theorem create_account_without_host (zAccount zUser : string) :
  "@"%char ∉ chars zAccount ->
  mxs_mysql_trim_quotes zAccount = Some zUser ->
  create_account zAccount = Some (AccountVerbatim zUser "") /\
  forall zHost, Account_matches (AccountVerbatim zUser "") zUser zHost = true.
Proof.
  intros Hnot Htrim. split.
  - unfold create_account. by rewrite (split_at_sign_no_at _ Hnot), Htrim.
  - intros zHost. simpl. unfold AccountVerbatim_matches.
    rewrite (bool_decide_eq_true_2 (zUser = zUser)) by done.
    rewrite (bool_decide_eq_true_2 ("" = "")) by done.
    by rewrite orb_true_r.
Qed.

(** X11: what an account that could be created is made of. Its user is
    the trimmed user part of the specifier. With a host part, the host
    part could be trimmed; the account compares the host verbatim when
    [mxs_mysql_name_to_pcre] reports no wildcard, and otherwise holds
    the pattern that function wrote and the code PCRE2 compiled from
    it. *)
Theorem create_account_Some (zAccount : string) (a : Account) :
  create_account zAccount = Some a ->
  mxs_mysql_trim_quotes (split_at_sign zAccount).1 = Some (Account_user a) /\
  match (split_at_sign zAccount).2 with
  | None => a = AccountVerbatim (Account_user a) ""
  | Some h0 =>
      exists h, mxs_mysql_trim_quotes h0 = Some h /\
        match a with
        | AccountVerbatim _ host =>
            (mxs_mysql_name_to_pcre h).2 = MXS_MYSQL_NAME_WITHOUT_WILDCARD /\ host = h
        | AccountRegexp _ host code =>
            (mxs_mysql_name_to_pcre h).2 = MXS_MYSQL_NAME_WITH_WILDCARD /\
            host = (mxs_mysql_name_to_pcre h).1 /\
            pcre2_compile host = Some code
        end
  end.
Proof.
  unfold create_account.
  destruct (split_at_sign zAccount) as [u0 h0]. cbn [fst snd].
  destruct (mxs_mysql_trim_quotes u0) as [u|]; [|done].
  destruct h0 as [h0|].
  - destruct (mxs_mysql_trim_quotes h0) as [h|]; [|done].
    destruct (mxs_mysql_name_to_pcre h) as [pcre_host rv] eqn:Hk.
    destruct rv.
    + unfold AccountRegexp_create.
      destruct (pcre2_compile pcre_host) as [code|] eqn:Hcode; [|done].
      intros [= <-]. split; [done |]. exists h. by rewrite Hk.
    + intros [= <-]. split; [done |]. exists h. by rewrite Hk.
  - by intros [= <-].
Qed.

End AccountProperties.

Lemma create_account_without_host_witness :
  create_account (P := digit_run_pcre2) (U := plain_mysql_utils) "alice"
  = Some (AccountVerbatim "alice" "") /\
  forall zHost, Account_matches (P := digit_run_pcre2) (AccountVerbatim "alice" "")
                  "alice" zHost = true.
Proof.
  apply (create_account_without_host (P := digit_run_pcre2) (U := plain_mysql_utils)).
  - vm_compute. intros H. repeat (apply elem_of_cons in H as [H|H]; [discriminate |]).
    by apply elem_of_nil in H.
  - reflexivity.
Defined.

Lemma create_account_Some_witness :
  mxs_mysql_trim_quotes (MysqlUtils := plain_mysql_utils)
    (split_at_sign "bob@10.0.0.1").1 = Some "bob".
Proof.
  apply (create_account_Some (P := digit_run_pcre2) (U := plain_mysql_utils)
           "bob@10.0.0.1" (AccountVerbatim "bob" "10.0.0.1")).
  reflexivity.
Defined.

(** ** The loader: what an accepted document gives *)

Section LoaderMore.

Context {P : PCRE2} {U : MysqlUtils}.

(** X12: [get_accounts] is all or nothing and keeps the order: it
    succeeds exactly when every element of the array is a string from
    which an account can be created, and then it returns those accounts
    one for one. *)
Theorem get_accounts_Forall2 (pStrings : list json_t) (accounts : list Account) :
  get_accounts pStrings = Some accounts <->
  Forall2 (fun pString sAccount =>
             exists zAccount,
               pString = JsonString zAccount /\
               create_account zAccount = Some sAccount)
          pStrings accounts.
Proof.
  revert accounts. induction pStrings as [|j l IH]; intros accounts; simpl.
  - split; [intros [= <-]; constructor | by intros ->%Forall2_nil_inv_l].
  - split.
    + destruct j as [| |z| | | | |]; simpl; try done.
      destruct (create_account z) as [a|] eqn:Ha; [|done].
      destruct (get_accounts l) as [accs|] eqn:Hl; [|done].
      intros [= <-]. constructor; [by exists z | by apply IH].
    + intros (a & accs & (z & -> & Hz) & Hrest & ->)%Forall2_cons_inv_l.
      simpl. rewrite Hz. apply IH in Hrest. by rewrite Hrest.
Qed.

(** X13: [create_rules_from_array] is all or nothing and keeps the order
    of the array: it succeeds exactly when every element gives a rule,
    and rule [i] is then the rule of element [i]. *)
Theorem create_rules_from_array_Forall2 (pRules : list json_t) (rules : list Rule) :
  create_rules_from_array pRules = Some rules <->
  Forall2 (fun pRule sRule => create_rule pRule = Some sRule) pRules rules.
Proof.
  revert rules. induction pRules as [|j l IH]; intros rules; simpl.
  - split; [intros [= <-]; constructor | by intros ->%Forall2_nil_inv_l].
  - split.
    + destruct (create_rule j) as [r|] eqn:Hr; [|done].
      destruct (create_rules_from_array l) as [rs|] eqn:Hl; [|done].
      intros [= <-]. constructor; [done | by apply IH].
    + intros (r & rs & Hr & Hrest & ->)%Forall2_cons_inv_l.
      rewrite Hr. apply IH in Hrest. by rewrite Hrest.
Qed.

(** X14: which kind of rule an element of the rules array gives. With an
    'obfuscate' key it is an Obfuscate rule, whatever else the element
    holds; otherwise, with a 'capture' key inside 'replace' it is a
    Capture rule; otherwise it is a Replace rule. *)
Theorem create_rule_kind (pRule : json_t) (r : Rule) :
  create_rule pRule = Some r ->
  match r with
  | ObfuscateRule _ => is_Some (json_object_get pRule KEY_OBFUSCATE)
  | CaptureRule _ _ _ =>
      json_object_get pRule KEY_OBFUSCATE = None /\
      exists pReplace,
        json_object_get pRule KEY_REPLACE = Some pReplace /\
        is_Some (json_object_get pReplace KEY_CAPTURE)
  | ReplaceRule _ _ _ =>
      json_object_get pRule KEY_OBFUSCATE = None /\
      exists pReplace,
        json_object_get pRule KEY_REPLACE = Some pReplace /\
        json_object_get pReplace KEY_CAPTURE = None
  end.
Proof.
  unfold create_rule. destruct (json_is_object pRule); [|done].
  destruct (json_object_get pRule KEY_OBFUSCATE) as [o|] eqn:Ho.
  - unfold ObfuscateRule_create_from.
    destruct (rule_get_values _ _); [|done]. intros [= <-]. by eexists.
  - destruct (json_object_get pRule KEY_REPLACE) as [pReplace|]; [|done].
    destruct (json_object_get pReplace KEY_CAPTURE) as [c|] eqn:Hc.
    + unfold CaptureRule_create_from.
      destruct (rule_get_values _ _); [|done].
      destruct (rule_get_capture_fill _) as [[capture fill]|]; [|done].
      destruct (_ && _); [|done].
      destruct (rule_compile_pcre2_match capture); [|done].
      intros [= <-]. split; [done |]. exists pReplace. split; [done |].
      rewrite Hc. by eexists.
    + unfold ReplaceRule_create_from.
      destruct (rule_get_values _ _); [|done].
      destruct (rule_get_value_fill _) as [[value fill]|]; [|done].
      destruct (_ && _); [|done].
      intros [= <-]. split; [done |]. by exists pReplace.
Qed.


(** The base of a rule is what [rule_get_values] read for its kind. *)
Lemma create_rule_base (pRule : json_t) (r : Rule) :
  create_rule pRule = Some r ->
  rule_get_values pRule
    match r with ObfuscateRule _ => KEY_OBFUSCATE | _ => KEY_REPLACE end
  = Some (Rule_base_of r).
Proof.
  unfold create_rule. destruct (json_is_object pRule); [|done].
  destruct (json_object_get pRule KEY_OBFUSCATE) as [o|].
  - unfold ObfuscateRule_create_from.
    destruct (rule_get_values pRule KEY_OBFUSCATE) eqn:Hv; [|done]. by intros [= <-].
  - destruct (json_object_get pRule KEY_REPLACE) as [pReplace|]; [|done].
    destruct (json_object_get pReplace KEY_CAPTURE).
    + unfold CaptureRule_create_from.
      destruct (rule_get_values pRule KEY_REPLACE) eqn:Hv; [|done].
      destruct (rule_get_capture_fill _) as [[capture fill]|]; [|done].
      destruct (_ && _); [|done].
      destruct (rule_compile_pcre2_match capture); [|done].
      by intros [= <-].
    + unfold ReplaceRule_create_from.
      destruct (rule_get_values pRule KEY_REPLACE) eqn:Hv; [|done].
      destruct (rule_get_value_fill _) as [[value fill]|]; [|done].
      destruct (_ && _); [|done].
      by intros [= <-].
Qed.




End LoaderMore.

Section LoaderNames.

Context {P : PCRE2} {U : MysqlUtils}.

Lemma rule_get_values_Some (pRule : json_t) (rule_type : string) (b : Rule_base) :
  rule_get_values pRule rule_type = Some b ->
  exists pKeyObj,
    json_object_get pRule rule_type = Some pKeyObj /\
    rule_run_common_checks pRule = Some (m_applies_to b, m_exempted b) /\
    rule_get_common_values pKeyObj = Some (m_column b, m_table b, m_database b).
Proof.
  unfold rule_get_values, rule_get_object.
  destruct (json_object_get pRule rule_type) as [obj|]; [|done].
  destruct (json_is_object obj); [|done].
  destruct (rule_run_common_checks pRule) as [[a e]|]; [|done].
  destruct (rule_get_common_values obj) as [[[c t] d]|] eqn:Hv; [|done].
  intros [= <-]. by exists obj.
Qed.

Lemma rule_run_common_checks_Some (pRule : json_t) (a e : list Account) :
  rule_run_common_checks pRule = Some (a, e) ->
  (forall j,
     json_object_get pRule KEY_APPLIES_TO = Some j \/
     json_object_get pRule KEY_EXEMPTED = Some j ->
     json_is_array j = true) /\
  match json_object_get pRule KEY_APPLIES_TO, json_object_get pRule KEY_EXEMPTED with
  | Some ja, Some je =>
      get_accounts (json_array_elements ja) = Some a /\
      get_accounts (json_array_elements je) = Some e
  | _, _ => a = [] /\ e = []
  end.
Proof.
  unfold rule_run_common_checks, validate_user_rules.
  destruct (json_object_get pRule KEY_APPLIES_TO) as [ja|];
    destruct (json_object_get pRule KEY_EXEMPTED) as [je|]; cbn [is_set_and].
  - destruct (json_is_array ja) eqn:Ha; destruct (json_is_array je) eqn:He;
      cbn [negb orb]; try done.
    destruct (get_accounts (json_array_elements ja)) as [la|]; [|done].
    destruct (get_accounts (json_array_elements je)) as [le|]; [|done].
    intros [= <- <-]. split; [|done]. intros j [[= <-]|[= <-]]; done.
  - destruct (json_is_array ja) eqn:Ha; cbn [negb orb]; [|done].
    intros [= <- <-]. split; [|done]. intros j [[= <-]|?]; done.
  - destruct (json_is_array je) eqn:He; cbn [negb orb]; [|done].
    intros [= <- <-]. split; [|done]. intros j [?|[= <-]]; done.
  - intros [= <- <-]. split; [|done]. intros j [?|?]; done.
Qed.

(** X16: the account lists of a loaded rule. A value under 'applies_to'
    or 'exempted' that is not an array makes the loader refuse the rule.
    With both keys present the two lists are the accounts created from
    the two arrays; with either key absent both lists are empty. *)
Theorem create_rule_account_lists (pRule : json_t) (r : Rule) :
  create_rule pRule = Some r ->
  (forall j,
     json_object_get pRule KEY_APPLIES_TO = Some j \/
     json_object_get pRule KEY_EXEMPTED = Some j ->
     json_is_array j = true) /\
  match json_object_get pRule KEY_APPLIES_TO, json_object_get pRule KEY_EXEMPTED with
  | Some ja, Some je =>
      get_accounts (json_array_elements ja) = Some (m_applies_to (Rule_base_of r)) /\
      get_accounts (json_array_elements je) = Some (m_exempted (Rule_base_of r))
  | _, _ => m_applies_to (Rule_base_of r) = [] /\ m_exempted (Rule_base_of r) = []
  end.
Proof.
  intros Hr. apply create_rule_base, rule_get_values_Some in Hr
    as (obj & _ & Hchecks & _).
  by apply rule_run_common_checks_Some.
Qed.

(** X17: a rule loaded from an element that lacks 'applies_to' or lacks
    'exempted' treats every connection alike: whether it matches a
    column does not depend on the user or on the host. *)
Theorem create_rule_single_list_matches_any_user (pRule : json_t) (r : Rule)
        (column_def : ColumnDef) (zUser zHost zUser' zHost' : string) :
  create_rule pRule = Some r ->
  json_object_get pRule KEY_APPLIES_TO = None \/
  json_object_get pRule KEY_EXEMPTED = None ->
  Rule_matches r column_def zUser zHost = Rule_matches r column_def zUser' zHost'.
Proof.
  intros Hr Habsent. apply create_rule_base, rule_get_values_Some in Hr
    as (obj & _ & Hchecks & _).
  apply rule_run_common_checks_Some in Hchecks as [_ Hlists].
  assert (m_applies_to (Rule_base_of r) = [] /\ m_exempted (Rule_base_of r) = [])
    as [Ha He].
  { destruct Habsent as [Hn | Hn]; rewrite Hn in Hlists; [done |].
    by destruct (json_object_get pRule KEY_APPLIES_TO). }
  unfold Rule_matches, Rule_base_matches. by rewrite Ha, He.
Qed.

(** X18: where the names of a loaded rule come from. The element has an
    object under the key of the rule's kind ('obfuscate', or 'replace'
    for Replace and Capture rules); the rule's column is the string under
    'column' in that object; its table and database are the strings under
    'table' and 'database', and are empty when those keys are absent. *)
Theorem create_rule_names (pRule : json_t) (r : Rule) :
  create_rule pRule = Some r ->
  exists pKeyObj,
    json_object_get pRule
      match r with ObfuscateRule _ => KEY_OBFUSCATE | _ => KEY_REPLACE end
    = Some pKeyObj /\
    json_object_get pKeyObj KEY_COLUMN = Some (JsonString (m_column (Rule_base_of r))) /\
    (json_object_get pKeyObj KEY_TABLE = None /\ m_table (Rule_base_of r) = "" \/
     json_object_get pKeyObj KEY_TABLE = Some (JsonString (m_table (Rule_base_of r)))) /\
    (json_object_get pKeyObj KEY_DATABASE = None /\ m_database (Rule_base_of r) = "" \/
     json_object_get pKeyObj KEY_DATABASE
     = Some (JsonString (m_database (Rule_base_of r)))).
Proof.
  intros Hr. apply create_rule_base, rule_get_values_Some in Hr
    as (obj & Hobj & _ & Hvalues).
  exists obj. split; [done |]. revert Hvalues.
  unfold rule_get_common_values, rule_check_database_options.
  destruct (json_object_get obj KEY_COLUMN) as [[| |c| | | | |]|]; try done.
  cbn [is_set_and json_is_string andb].
  destruct (json_object_get obj KEY_TABLE) as [[| |t| | | | |]|];
    cbn [is_null_or json_is_string andb negb]; try done;
    destruct (json_object_get obj KEY_DATABASE) as [[| |d| | | | |]|];
    cbn [is_null_or json_is_string andb negb string_value_or_empty]; try done;
    intros [= <- <- <-]; split_and!; auto.
Qed.

(** X19: the fill of a loaded Replace or Capture rule is the default "X"
    when the 'with' object has no 'fill' key. *)
Theorem create_rule_default_fill (pRule pWith : json_t) (r : Rule) :
  create_rule pRule = Some r ->
  json_object_get pRule KEY_WITH = Some pWith ->
  json_object_get pWith KEY_FILL = None ->
  match r with
  | ReplaceRule _ _ m_fill => m_fill = MASKING_DEFAULT_FILL
  | CaptureRule _ _ m_fill => m_fill = MASKING_DEFAULT_FILL
  | ObfuscateRule _ => True
  end.
Proof.
  intros Hr Hwith Hfill. revert Hr.
  unfold create_rule. destruct (json_is_object pRule); [|done].
  destruct (json_object_get pRule KEY_OBFUSCATE).
  - unfold ObfuscateRule_create_from.
    destruct (rule_get_values _ _); [|done]. by intros [= <-].
  - destruct (json_object_get pRule KEY_REPLACE) as [pReplace|]; [|done].
    destruct (json_object_get pReplace KEY_CAPTURE).
    + unfold CaptureRule_create_from.
      destruct (rule_get_values _ _); [|done].
      unfold rule_get_capture_fill, rule_get_fill. rewrite Hwith, Hfill.
      destruct (negb (json_is_object pWith)); [done |].
      destruct (rule_get_object pRule KEY_REPLACE) as [obj|]; [|done].
      cbn [json_string_value].
      destruct (json_object_get obj KEY_CAPTURE) as [[| |capture| | | | |]|]; try done.
      destruct (_ && _); [|done].
      destruct (rule_compile_pcre2_match capture); [|done].
      by intros [= <-].
    + unfold ReplaceRule_create_from.
      destruct (rule_get_values _ _); [|done].
      unfold rule_get_value_fill, rule_get_fill. rewrite Hwith, Hfill.
      destruct (negb (json_is_object pWith)); [done |].
      cbn [json_string_value].
      destruct (json_object_get pWith KEY_VALUE) as [[| |value| | | | |]|]; try done.
      destruct (_ && _); [|done].
      by intros [= <-].
Qed.

End LoaderNames.

Lemma create_rule_applies_to_only :
  create_rule (P := digit_run_pcre2) (U := plain_mysql_utils) rule_applies_to_only
  = Some (ReplaceRule {| m_column := "ssn"; m_table := ""; m_database := "";
                         m_applies_to := []; m_exempted := [] |}
                      "XXXXXXXXX" "X").
Proof. reflexivity. Qed.

Lemma create_rule_kind_witness :
  json_object_get rule_applies_to_only KEY_OBFUSCATE = None /\
  exists pReplace,
    json_object_get rule_applies_to_only KEY_REPLACE = Some pReplace /\
    json_object_get pReplace KEY_CAPTURE = None.
Proof.
  exact (create_rule_kind (P := digit_run_pcre2) (U := plain_mysql_utils)
           rule_applies_to_only _ create_rule_applies_to_only).
Defined.


Lemma create_rule_account_lists_witness :
  m_applies_to (P := digit_run_pcre2)
    {| m_column := "ssn"; m_table := ""; m_database := "";
       m_applies_to := []; m_exempted := [] |} = [] /\
  m_exempted (P := digit_run_pcre2)
    {| m_column := "ssn"; m_table := ""; m_database := "";
       m_applies_to := []; m_exempted := [] |} = [].
Proof.
  exact (proj2 (create_rule_account_lists (P := digit_run_pcre2)
                  (U := plain_mysql_utils) rule_applies_to_only _
                  create_rule_applies_to_only)).
Defined.

Lemma create_rule_single_list_matches_any_user_witness :
  Rule_matches (P := digit_run_pcre2)
    (ReplaceRule {| m_column := "ssn"; m_table := ""; m_database := "";
                    m_applies_to := []; m_exempted := [] |} "XXXXXXXXX" "X")
    ssn_column "alice" "host"
  = Rule_matches (P := digit_run_pcre2)
      (ReplaceRule {| m_column := "ssn"; m_table := ""; m_database := "";
                      m_applies_to := []; m_exempted := [] |} "XXXXXXXXX" "X")
      ssn_column "mallory" "elsewhere".
Proof.
  apply (create_rule_single_list_matches_any_user (P := digit_run_pcre2)
           (U := plain_mysql_utils) rule_applies_to_only).
  - exact create_rule_applies_to_only.
  - right. reflexivity.
Defined.

Lemma create_rule_names_witness :
  exists pKeyObj,
    json_object_get rule_applies_to_only KEY_REPLACE = Some pKeyObj /\
    json_object_get pKeyObj KEY_COLUMN = Some (JsonString "ssn").
Proof.
  destruct (create_rule_names (P := digit_run_pcre2) (U := plain_mysql_utils)
              rule_applies_to_only _ create_rule_applies_to_only)
    as (obj & Hobj & Hcol & _).
  exists obj. split; [exact Hobj | exact Hcol].
Defined.

Lemma create_rule_default_fill_witness : "X" = MASKING_DEFAULT_FILL.
Proof.
  exact (create_rule_default_fill (P := digit_run_pcre2) (U := plain_mysql_utils)
           rule_applies_to_only (JsonObject [("value", JsonString "XXXXXXXXX")]) _
           create_rule_applies_to_only eq_refl eq_refl).
Defined.

(** * Further properties of the router's header *)

Module RWSplitMore.

Import RWSplit RWSplitNames.

(** X20: [GET_SELECT_CRITERIA] reads back the name that
    [select_criteria_to_str] prints for each of the four selection
    criteria, and "UNDEFINED_CRITERIA" reads back as UNDEFINED_CRITERIA.
    The macro compares only as many characters as the name has, so text
    after the name changes nothing. *)
Theorem GET_SELECT_CRITERIA_to_str (type : select_criteria_t) (rest : string) :
  GET_SELECT_CRITERIA (String.append (select_criteria_to_str type) rest) = type.
Proof. by destruct type, rest; vm_compute. Qed.

Lemma land_bit (t : Z) (k : Z) :
  (0 <= k)%Z -> (Z.land t (2 ^ k) =? 0)%Z = negb (Z.testbit t k).
Proof.
  intros Hk.
  assert (Z.land t (2 ^ k) = if Z.testbit t k then (2 ^ k)%Z else 0%Z) as ->.
  { apply Z.bits_inj'. intros n Hn.
    rewrite Z.land_spec, Z.pow2_bits_eqb by done.
    destruct (Z.eqb_spec k n) as [<-|Hne].
    - destruct (Z.testbit t k); [|by rewrite Z.bits_0].
      by rewrite Z.pow2_bits_eqb, Z.eqb_refl.
    - rewrite andb_false_r. destruct (Z.testbit t k); [|by rewrite Z.bits_0].
      rewrite Z.pow2_bits_eqb by done. symmetry. by apply Z.eqb_neq. }
  destruct (Z.testbit t k); [|done].
  apply Z.eqb_neq. pose proof (Z.pow_pos_nonneg 2 k). lia.
Qed.

Lemma TARGET_IS_MASTER_bit t : TARGET_IS_MASTER t = Z.testbit t 0.
Proof.
  unfold TARGET_IS_MASTER. change TARGET_MASTER with (2 ^ 0)%Z.
  by rewrite land_bit, negb_involutive.
Qed.

Lemma TARGET_IS_SLAVE_bit t : TARGET_IS_SLAVE t = Z.testbit t 1.
Proof.
  unfold TARGET_IS_SLAVE. change TARGET_SLAVE with (2 ^ 1)%Z.
  by rewrite land_bit, negb_involutive.
Qed.

Lemma TARGET_IS_ALL_bit t : TARGET_IS_ALL t = Z.testbit t 3.
Proof.
  unfold TARGET_IS_ALL. change TARGET_ALL with (2 ^ 3)%Z.
  by rewrite land_bit, negb_involutive.
Qed.

(** X21: the target bits are independent. Or-ing TARGET_ALL into a mask
    makes TARGET_IS_ALL hold and leaves TARGET_IS_MASTER and
    TARGET_IS_SLAVE as they were, and likewise for TARGET_MASTER and
    TARGET_SLAVE; the test of a union of two masks is the disjunction of
    the tests. *)
Theorem TARGET_bits_independent (t t' : Z) :
  TARGET_IS_ALL (Z.lor t TARGET_ALL) = true /\
  TARGET_IS_MASTER (Z.lor t TARGET_ALL) = TARGET_IS_MASTER t /\
  TARGET_IS_SLAVE (Z.lor t TARGET_ALL) = TARGET_IS_SLAVE t /\
  TARGET_IS_MASTER (Z.lor t TARGET_MASTER) = true /\
  TARGET_IS_SLAVE (Z.lor t TARGET_MASTER) = TARGET_IS_SLAVE t /\
  TARGET_IS_ALL (Z.lor t TARGET_MASTER) = TARGET_IS_ALL t /\
  TARGET_IS_SLAVE (Z.lor t TARGET_SLAVE) = true /\
  TARGET_IS_MASTER (Z.lor t TARGET_SLAVE) = TARGET_IS_MASTER t /\
  TARGET_IS_ALL (Z.lor t TARGET_SLAVE) = TARGET_IS_ALL t /\
  TARGET_IS_MASTER (Z.lor t t') = TARGET_IS_MASTER t || TARGET_IS_MASTER t' /\
  TARGET_IS_SLAVE (Z.lor t t') = TARGET_IS_SLAVE t || TARGET_IS_SLAVE t' /\
  TARGET_IS_ALL (Z.lor t t') = TARGET_IS_ALL t || TARGET_IS_ALL t'.
Proof.
  rewrite !TARGET_IS_MASTER_bit, !TARGET_IS_SLAVE_bit, !TARGET_IS_ALL_bit.
  rewrite !Z.lor_spec.
  change (Z.testbit TARGET_ALL 3) with true.
  change (Z.testbit TARGET_ALL 0) with false.
  change (Z.testbit TARGET_ALL 1) with false.
  change (Z.testbit TARGET_MASTER 0) with true.
  change (Z.testbit TARGET_MASTER 1) with false.
  change (Z.testbit TARGET_MASTER 3) with false.
  change (Z.testbit TARGET_SLAVE 1) with true.
  change (Z.testbit TARGET_SLAVE 0) with false.
  change (Z.testbit TARGET_SLAVE 3) with false.
  rewrite !orb_true_r, !orb_false_r. done.
Qed.

End RWSplitMore.

(** * The loaded rules in document order *)

Section DocumentOrder.

Context {P : PCRE2} {U : MysqlUtils}.

Lemma create_rules_from_array_rel (pRules : list json_t) : forall rules,
  create_rules_from_array pRules = Some rules ->
  Forall2 (fun pRule sRule => create_rule pRule = Some sRule) pRules rules.
Proof.
  induction pRules as [|j l IH]; intros rules; simpl.
  - intros [= <-]. constructor.
  - destruct (create_rule j) as [r|] eqn:Hr; [|done].
    destruct (create_rules_from_array l) as [rs|]; [|done].
    intros [= <-]. constructor; [done | by apply IH].
Qed.

(** X22: the rule used for a column is decided by the order of the
    document: [get_rule_for] on the rules loaded from a document returns
    the rule of the first element of the 'rules' array whose rule
    matches. *)
Theorem MaskingRules_get_rule_for_document_order (pRoot : json_t)
        (rules : MaskingRules) (column_def : ColumnDef) (zUser zHost : string)
        (r : Rule) :
  MaskingRules_create_from pRoot = Some rules ->
  MaskingRules_get_rule_for rules column_def zUser zHost = Some r ->
  exists pRules i pRule,
    json_object_get pRoot KEY_RULES = Some (JsonArray pRules) /\
    pRules !! i = Some pRule /\
    create_rule pRule = Some r /\
    Rule_matches r column_def zUser zHost = true /\
    forall j pRule' r',
      j < i -> pRules !! j = Some pRule' -> create_rule pRule' = Some r' ->
      Rule_matches r' column_def zUser zHost = false.
Proof.
  unfold MaskingRules_create_from, create_rules_from_root.
  destruct (json_object_get pRoot KEY_RULES) as [[| pRules | | | | | |]|]; try done.
  destruct (create_rules_from_array pRules) as [rs|] eqn:Hrs; [|done].
  apply create_rules_from_array_rel in Hrs.
  intros [= <-]. unfold MaskingRules_get_rule_for. cbn [m_rules].
  set (matcher := fun sRule => Rule_matches sRule column_def zUser zHost).
  pose proof (find_if_le matcher rs) as Hle.
  destruct (find_if matcher rs =? length rs)%nat eqn:He; [done |].
  apply Nat.eqb_neq in He. cbn [negb].
  destruct (find_if_found matcher rs) as (x & Hx & Hp); [lia |].
  rewrite Hx. intros [= <-].
  destruct (Forall2_lookup_r _ _ _ _ _ Hrs Hx) as (pRule & HpRule & Hcreate).
  exists pRules, (find_if matcher rs), pRule. split_and!; [done.. |].
  intros j pRule' r' Hj Hj' Hcreate'.
  destruct (Forall2_lookup_l _ _ _ _ _ Hrs Hj') as (r'' & Hr'' & Hc'').
  assert (r'' = r') as -> by congruence.
  by apply (find_if_before matcher rs j r').
Qed.

End DocumentOrder.

Lemma MaskingRules_get_rule_for_document_order_witness :
  exists pRules i pRule,
    json_object_get rules_three KEY_RULES = Some (JsonArray pRules) /\
    i = 1 /\
    pRules !! i = Some pRule /\
    create_rule (P := digit_run_pcre2) (U := plain_mysql_utils) pRule
    = Some (ReplaceRule {| m_column := "ssn"; m_table := ""; m_database := "";
                           m_applies_to := []; m_exempted := [] |}
                        "XXXXXXXXX" "#") /\
    (forall pRule' r',
       pRules !! 0 = Some pRule' ->
       create_rule (P := digit_run_pcre2) (U := plain_mysql_utils) pRule' = Some r' ->
       Rule_matches r' ssn_column "alice" "host" = false) /\
    (exists pRule' r',
       pRules !! 2 = Some pRule' /\
       create_rule (P := digit_run_pcre2) (U := plain_mysql_utils) pRule' = Some r' /\
       Rule_matches r' ssn_column "alice" "host" = true).
Proof.
  destruct (MaskingRules_get_rule_for_document_order (P := digit_run_pcre2)
              (U := plain_mysql_utils) rules_three _ ssn_column
              "alice" "host" _ eq_refl eq_refl)
    as (pRules & i & pRule & Hrules & Hi & Hcreate & _ & Hbefore).
  exists pRules, i, pRule.
  injection Hrules as <-.
  assert (i = 1) as ->.
  { destruct i as [|[|[|i]]]; [| reflexivity | |].
    - injection Hi as <-. discriminate Hcreate.
    - injection Hi as <-. discriminate Hcreate.
    - discriminate Hi. }
  split; [reflexivity |]. split; [reflexivity |]. split; [exact Hi |].
  split; [exact Hcreate |]. split.
  - intros pRule' r'. apply Hbefore. constructor.
  - eexists _, _. split; [reflexivity |]. split; reflexivity.
Defined.

(** * Capture rules whose pattern reaches \K in a lookaround *)

(** Both rule elements are accepted by the loader. *)
Lemma create_rule_capture_lookahead_k :
  create_rule (P := bsk_pcre2) (U := plain_mysql_utils) rule_capture_lookahead_k
  = Some (CaptureRule {| m_column := "ssn"; m_table := ""; m_database := "";
                         m_applies_to := []; m_exempted := [] |}
                      lookahead_k "X").
Proof. reflexivity. Qed.

Lemma create_rule_capture_lookbehind_k :
  create_rule (P := bsk_pcre2) (U := plain_mysql_utils) rule_capture_lookbehind_k
  = Some (CaptureRule {| m_column := "ssn"; m_table := ""; m_database := "";
                         m_applies_to := []; m_exempted := [] |}
                      lookbehind_k "X").
Proof. reflexivity. Qed.

(** Neither pattern keeps its matches in range. *)
Lemma bsk_not_in_range : ~ pcre2_match_in_range bsk_pcre2.
Proof.
  intros H.
  destruct (H lookahead_k (chars "ab") 0 1%Z 2 0 eq_refl ltac:(done)) as (_ & Hle & _).
  lia.
Qed.

(** The state the loop comes back to on payload "ab" with fill "X". *)
Lemma capture_loop_lookbehind_k (fuel : nat) :
  capture_loop (P := bsk_pcre2) fuel lookbehind_k "X" 2
    {| cs_s := chars "Xb"; cs_startoffset := 1; cs_rv := 1 |} = OutOfFuel.
Proof.
  induction fuel as [|fuel IH]; [reflexivity |].
  cbn [capture_loop].
  change (capture_step (P := bsk_pcre2) lookbehind_k "X" 2
            {| cs_s := chars "Xb"; cs_startoffset := 1; cs_rv := 1 |})
    with (Continue {| cs_s := chars "Xb"; cs_startoffset := 1; cs_rv := 1 |}).
  exact IH.
Qed.

(** C2: a Capture rule whose pattern is [(?=(?1))|(ab\K)], fill "X", on
    the payload "ab". The loader builds the rule. The match PCRE2
    reports has its start, 2, after its end, 0; the two differ, so the
    zero-length test lets it through, and [fill_buffer] is handed a
    range that begins at the end of the payload and ends before it
    begins: the rewrite writes outside the payload instead of returning
    a payload of the same length. *)
Theorem Rule_rewrite_lookahead_k_undefined :
  create_rule (P := bsk_pcre2) (U := plain_mysql_utils) rule_capture_lookahead_k
  = Some (CaptureRule {| m_column := "ssn"; m_table := ""; m_database := "";
                         m_applies_to := []; m_exempted := [] |}
                      lookahead_k "X") /\
  pcre2_match lookahead_k (c_str (chars "ab")) 0 = (1%Z, (2, 0)) /\
  capture_step (P := bsk_pcre2) lookahead_k "X" 2
    {| cs_s := chars "ab"; cs_startoffset := 0; cs_rv := 0 |} = Fault /\
  forall char_signed fuel,
    Rule_rewrite (P := bsk_pcre2) char_signed (S fuel)
      (CaptureRule {| m_column := "ssn"; m_table := ""; m_database := "";
                      m_applies_to := []; m_exempted := [] |}
                   lookahead_k "X")
      (chars "ab") = Undefined.
Proof. split_and!; reflexivity. Qed.

(** C8: a Capture rule whose pattern is [(?(DEFINE)(\K.))(?<=(?1))], fill
    "X", on the payload "ab". The loader builds the rule. At search
    offset 1 PCRE2 reports the match (0, 1): it is not empty, so the
    zero-length test lets it through, the fill is written over byte 0
    and the search offset is set to 1 again. The loop has come back to
    the state it was in and never ends: the rewrite runs out of fuel
    whatever the fuel. *)
Theorem CaptureRule_rewrite_lookbehind_k_never_returns :
  create_rule (P := bsk_pcre2) (U := plain_mysql_utils) rule_capture_lookbehind_k
  = Some (CaptureRule {| m_column := "ssn"; m_table := ""; m_database := "";
                         m_applies_to := []; m_exempted := [] |}
                      lookbehind_k "X") /\
  pcre2_match lookbehind_k (c_str (chars "Xb")) 1 = (1%Z, (0, 1)) /\
  capture_step (P := bsk_pcre2) lookbehind_k "X" 2
    {| cs_s := chars "Xb"; cs_startoffset := 1; cs_rv := 1 |}
  = Continue {| cs_s := chars "Xb"; cs_startoffset := 1; cs_rv := 1 |} /\
  forall fuel,
    CaptureRule_rewrite (P := bsk_pcre2) fuel lookbehind_k "X" (chars "ab") = OutOfFuel.
Proof.
  split_and!; [reflexivity.. |].
  intros [|fuel]; [reflexivity |].
  assert (capture_loop (P := bsk_pcre2) (S fuel) lookbehind_k "X" (length (chars "ab"))
            {| cs_s := chars "ab"; cs_startoffset := 0; cs_rv := 0 |} = OutOfFuel)
    as Hloop by exact (capture_loop_lookbehind_k fuel).
  unfold CaptureRule_rewrite. cbv zeta. rewrite Hloop. reflexivity.
Qed.
